(** * Remote classroom: the socket hook and the teacher and student clients

    A shallow embedding of [useSocket] (the connection hook) and of the
    event handlers and actions of [TeacherInterface.tsx] and
    [StudentInterface.tsx], followed by the properties of the real-time
    session core that can be read off that code.

    Conventions of the embedding.
    - A React component instance is a record of its [useState] cells; a
      handler or action is a function from the committed state to the next
      committed state (every setter of one handler call is applied).
    - The socket object is a record holding the log of the calls the code
      makes on it ([emit], [connect], [disconnect]).
    - A JavaScript string is a Rocq [string], one character per UTF-16 code
      unit below 256 (which covers every literal of the source).
    - A JavaScript object used as a dictionary ([responses]) is the [gmap]
      of its own properties, keyed by strings; a read that finds no own
      property falls back on [Object.prototype], as it does in the source.
      Counts are natural numbers.
    - Clock readings ([Date.now()], [new Date()]) and the random student
      name are arguments of the functions that use them. *)

From stdpp Require Import gmap strings list fin_maps pretty.
From Stdlib Require Import ZArith Ascii String.

Local Open Scope string_scope.
Local Open Scope list_scope.

(** ** JavaScript string helpers *)

Module Js.

(** Code units below 256 that [String.prototype.trim] strips: TAB, LF, VT,
    FF, CR, SPACE and NBSP. *)
Definition isWhiteSpace (c : ascii) : bool :=
  bool_decide (N_of_ascii c ∈ [9; 10; 11; 12; 13; 32; 160]%N).

Fixpoint trimStart (s : string) : string :=
  match s with
  | EmptyString => EmptyString
  | String c s' => if isWhiteSpace c then trimStart s' else s
  end.

Fixpoint trimEnd (s : string) : string :=
  match s with
  | EmptyString => EmptyString
  | String c s' =>
      match trimEnd s' with
      | EmptyString => if isWhiteSpace c then EmptyString else String c EmptyString
      | t => String c t
      end
  end.

Definition trim (s : string) : string := trimEnd (trimStart s).

(** Truthiness of a string in a condition: every string but the empty one. *)
Definition truthy (s : string) : bool :=
  match s with
  | EmptyString => false
  | String _ _ => true
  end.

(** Some character of the string is not white space. *)
Fixpoint hasInk (s : string) : bool :=
  match s with
  | EmptyString => false
  | String c s' => negb (isWhiteSpace c) || hasInk s'
  end.

(** The property names of [Object.prototype] (ECMAScript, with its
    annex B): what [object[key]] finds on an object literal that has no
    own property [key]. *)
Definition objectPrototypeKeys : list string :=
  ["constructor"; "__defineGetter__"; "__defineSetter__"; "hasOwnProperty";
   "__lookupGetter__"; "__lookupSetter__"; "isPrototypeOf";
   "propertyIsEnumerable"; "toString"; "valueOf"; "__proto__";
   "toLocaleString"].

Definition inheritedKey (key : string) : bool :=
  bool_decide (key ∈ objectPrototypeKeys).

End Js.

(** ** Data carried by socket events *)

Record Message := mkMessage {
  msg_id : string;
  msg_text : string;
  msg_sender : string;
  msg_timestamp : Z
}.

(** A value that can be read from, or stored in, [responses]: a count;
    the member of [Object.prototype] of the given name (read when there is
    no own property of that name); or the string that [+ 1] makes of such a
    member, which is the text of the member followed by that many
    characters 1. *)
Inductive JsValue :=
| JsNumber (n : nat)
| JsMember (name : string)
| JsMemberText (name : string) (ones : nat).

Record Poll := mkPoll {
  question : string;
  options : list string;
  responses : gmap string JsValue
}.

(** The second argument of [socket.emit]. One constructor per shape of
    object literal the two clients pass. *)
Inductive Payload :=
| PRoomId (roomId : string)
| PRoom (roomId : string)
| PMicrophone (isOn : bool) (roomId : string)
| PStudent (name roomId : string)
| PChat (m : Message)
| PPoll (p : Poll)
| PResponse (opt : string)
| PEmpty.

(** ** useSocket *)

Module UseSocket.

Record IoOptions := mkIoOptions {
  reconnectionAttempts : N;
  reconnectionDelay : N;
  transports : list string;
  timeout : N;
  forceNew : bool
}.

Inductive SocketCall :=
| Emit (event : string) (data : Payload)
| Connect
| Disconnect.

Record Socket := mkSocket {
  opts : IoOptions;
  calls : list SocketCall
}.

Definition call (c : SocketCall) (s : Socket) : Socket :=
  {| opts := opts s; calls := calls s ++ [c] |}.

(** [io(SOCKET_SERVER_URL, {...})] *)
Definition io : Socket :=
  {| opts := {| reconnectionAttempts := 5%N;
                reconnectionDelay := 1000%N;
                transports := ["websocket"; "polling"];
                timeout := 20000%N;
                forceNew := true |};
     calls := [] |}.

(** The three state cells of the hook. [socket] is [None] until the mount
    effect has run [setSocket(socketIo)]; from then on it is the one socket
    object, which the handlers registered on [socketIo] share. *)
Record Hook := mkHook {
  socket : option Socket;
  isConnected : bool;
  error : string
}.

Definition initial : Hook :=
  {| socket := None; isConnected := false; error := EmptyString |}.

(** The mount effect, up to [setSocket(socketIo)]. *)
Definition mount (h : Hook) : Hook :=
  {| socket := Some io; isConnected := isConnected h; error := error h |}.

(** The cleanup of the mount effect: [socketIo.disconnect()]. *)
Definition unmount (h : Hook) : Hook :=
  {| socket := call Disconnect <$> socket h;
     isConnected := isConnected h; error := error h |}.

Definition serverDisconnect : string := "io server disconnect".

Inductive SocketEvent :=
| EvConnect
| EvConnectError
| EvDisconnect (reason : string)
| EvReconnect (attemptNumber : nat)
| EvReconnectError.

Definition on_connect (h : Hook) : Hook :=
  {| socket := socket h; isConnected := true; error := EmptyString |}.

Definition on_connect_error (h : Hook) : Hook :=
  {| socket := socket h; isConnected := false;
     error := "Connection error. Retrying..." |}.

Definition on_disconnect (reason : string) (h : Hook) : Hook :=
  {| socket := if bool_decide (reason = serverDisconnect)
               then call Connect <$> socket h
               else socket h;
     isConnected := false;
     error := error h |}.

Definition on_reconnect (attemptNumber : nat) (h : Hook) : Hook :=
  {| socket := socket h; isConnected := true; error := EmptyString |}.

Definition on_reconnect_error (h : Hook) : Hook :=
  {| socket := socket h; isConnected := isConnected h;
     error := "Reconnection failed. Check your internet connection." |}.

Definition handle (ev : SocketEvent) (h : Hook) : Hook :=
  match ev with
  | EvConnect => on_connect h
  | EvConnectError => on_connect_error h
  | EvDisconnect reason => on_disconnect reason h
  | EvReconnect n => on_reconnect n h
  | EvReconnectError => on_reconnect_error h
  end.

(** The guard [socket && isConnected]. *)
Definition connected (h : Hook) : bool :=
  match socket h with
  | Some _ => isConnected h
  | None => false
  end.

Definition notConnectedMessage : string :=
  "Cannot send message. Not connected to server.".

Definition sendMessage (event : string) (data : Payload) (h : Hook) : Hook :=
  match socket h with
  | Some s =>
      if isConnected h
      then {| socket := Some (call (Emit event data) s);
              isConnected := isConnected h; error := error h |}
      else {| socket := socket h; isConnected := isConnected h;
              error := notConnectedMessage |}
  | None => {| socket := socket h; isConnected := isConnected h;
               error := notConnectedMessage |}
  end.

Definition joinRoom (roomId : string) (h : Hook) : Hook :=
  match socket h with
  | Some s =>
      if isConnected h
      then {| socket := Some (call (Emit "join-room" (PRoomId roomId)) s);
              isConnected := isConnected h; error := error h |}
      else h
  | None => h
  end.

Definition leaveRoom (roomId : string) (h : Hook) : Hook :=
  match socket h with
  | Some s =>
      if isConnected h
      then {| socket := Some (call (Emit "leave-room" (PRoomId roomId)) s);
              isConnected := isConnected h; error := error h |}
      else h
  | None => h
  end.

(** What the socket has been asked to send, oldest first. *)
Definition emitted (h : Hook) : list (string * Payload) :=
  match socket h with
  | Some s =>
      omap (fun c => match c with Emit e d => Some (e, d) | _ => None end)
           (calls s)
  | None => []
  end.

Definition isConnectCall (c : SocketCall) : bool :=
  match c with
  | Connect => true
  | _ => false
  end.

(** How often the code has called [connect()] on the socket. *)
Definition connectCalls (h : Hook) : nat :=
  match socket h with
  | Some s => List.length (List.filter isConnectCall (calls s))
  | None => 0
  end.

End UseSocket.

(** ** TeacherInterface.tsx *)

Module TeacherInterface.
Import UseSocket.

Record State := mkState {
  hook : Hook;
  isSessionActive : bool;
  isMicrophoneOn : bool;
  isRecording : bool;
  messages : list Message;
  newMessage : string;
  connectedStudents : Z;
  currentPoll : option Poll;
  pollQuestion : string;
  pollOptions : list string
}.

Definition roomId : string := "classroom-main".

Definition initial : State :=
  {| hook := UseSocket.initial;
     isSessionActive := false; isMicrophoneOn := false; isRecording := false;
     messages := []; newMessage := EmptyString;
     connectedStudents := 0;
     currentPoll := None; pollQuestion := EmptyString; pollOptions := [EmptyString; EmptyString] |}.

(** *** State setters *)

Definition withHook (f : Hook -> Hook) (t : State) : State :=
  mkState (f (hook t)) (isSessionActive t) (isMicrophoneOn t) (isRecording t)
          (messages t) (newMessage t) (connectedStudents t) (currentPoll t)
          (pollQuestion t) (pollOptions t).

Definition setIsSessionActive (b : bool) (t : State) : State :=
  mkState (hook t) b (isMicrophoneOn t) (isRecording t)
          (messages t) (newMessage t) (connectedStudents t) (currentPoll t)
          (pollQuestion t) (pollOptions t).

Definition setIsMicrophoneOn (b : bool) (t : State) : State :=
  mkState (hook t) (isSessionActive t) b (isRecording t)
          (messages t) (newMessage t) (connectedStudents t) (currentPoll t)
          (pollQuestion t) (pollOptions t).

Definition setIsRecording (b : bool) (t : State) : State :=
  mkState (hook t) (isSessionActive t) (isMicrophoneOn t) b
          (messages t) (newMessage t) (connectedStudents t) (currentPoll t)
          (pollQuestion t) (pollOptions t).

Definition setMessages (f : list Message -> list Message) (t : State) : State :=
  mkState (hook t) (isSessionActive t) (isMicrophoneOn t) (isRecording t)
          (f (messages t)) (newMessage t) (connectedStudents t) (currentPoll t)
          (pollQuestion t) (pollOptions t).

Definition setNewMessage (v : string) (t : State) : State :=
  mkState (hook t) (isSessionActive t) (isMicrophoneOn t) (isRecording t)
          (messages t) v (connectedStudents t) (currentPoll t)
          (pollQuestion t) (pollOptions t).

Definition setConnectedStudents (n : Z) (t : State) : State :=
  mkState (hook t) (isSessionActive t) (isMicrophoneOn t) (isRecording t)
          (messages t) (newMessage t) n (currentPoll t)
          (pollQuestion t) (pollOptions t).

Definition setCurrentPoll (p : option Poll) (t : State) : State :=
  mkState (hook t) (isSessionActive t) (isMicrophoneOn t) (isRecording t)
          (messages t) (newMessage t) (connectedStudents t) p
          (pollQuestion t) (pollOptions t).

Definition setPollQuestion (v : string) (t : State) : State :=
  mkState (hook t) (isSessionActive t) (isMicrophoneOn t) (isRecording t)
          (messages t) (newMessage t) (connectedStudents t) (currentPoll t)
          v (pollOptions t).

Definition setPollOptions (v : list string) (t : State) : State :=
  mkState (hook t) (isSessionActive t) (isMicrophoneOn t) (isRecording t)
          (messages t) (newMessage t) (connectedStudents t) (currentPoll t)
          (pollQuestion t) v.

(** *** Handlers of socket events *)

Definition on_student_joined (count : Z) (t : State) : State :=
  setConnectedStudents count t.

Definition on_student_left (count : Z) (t : State) : State :=
  setConnectedStudents count t.

Definition on_chat_message (m : Message) (t : State) : State :=
  setMessages (fun prev => prev ++ [m]) t.

(** [responses[option]]: the own property if there is one, else the member
    of [Object.prototype] of that name if there is one, else
    [undefined]. *)
Definition readResponse (rs : gmap string JsValue) (opt : string)
    : option JsValue :=
  match rs !! opt with
  | Some v => Some v
  | None => if Js.inheritedKey opt then Some (JsMember opt) else None
  end.

(** [x || 0]: [undefined] and 0 give 0; a non-zero number, a function, an
    object and a non-empty string are truthy and are kept. *)
Definition orZero (x : option JsValue) : JsValue :=
  default (JsNumber 0) x.

(** [v + 1]: a number is incremented; anything else is turned into its
    text, to which the character 1 is appended. *)
Definition plusOne (v : JsValue) : JsValue :=
  match v with
  | JsNumber n => JsNumber (n + 1)
  | JsMember name => JsMemberText name 1
  | JsMemberText name ones => JsMemberText name (ones + 1)
  end.

(** [(prev.responses[option] || 0) + 1] stored under [option]. *)
Definition countResponse (opt : string) (p : Poll) : Poll :=
  {| question := question p;
     options := options p;
     responses :=
       <[opt := plusOne (orZero (readResponse (responses p) opt))]> (responses p) |}.

(** The result of a state updater that dereferences its argument. *)
Inductive Outcome (A : Type) :=
| Done (a : A)
| TypeError.
Arguments Done {A} a.
Arguments TypeError {A}.

(** The ["poll-response"] handler as written: the test [if (currentPoll)]
    reads the value captured when the effect subscribed, the updater
    reads [prev], and [prev!.responses] throws when [prev] is [null]. *)
Definition pollResponseHandler
    (captured : option Poll) (opt : string) (prev : option Poll)
    : Outcome (option Poll) :=
  match captured with
  | Some _ =>
      match prev with
      | Some p => Done (Some (countResponse opt p))
      | None => TypeError
      end
  | None => Done prev
  end.

(** The handler on a committed state: the effect depends on [currentPoll],
    so the subscribed handler has captured the committed [currentPoll]. *)
Definition on_poll_response (opt : string) (t : State) : State :=
  match pollResponseHandler (currentPoll t) opt (currentPoll t) with
  | Done p => setCurrentPoll p t
  | TypeError => t
  end.

Inductive Event :=
| StudentJoined (count : Z)
| StudentLeft (count : Z)
| ChatMessage (m : Message)
| PollResponse (opt : string).

Definition handle (t : State) (ev : Event) : State :=
  match ev with
  | StudentJoined count => on_student_joined count t
  | StudentLeft count => on_student_left count t
  | ChatMessage m => on_chat_message m t
  | PollResponse opt => on_poll_response opt t
  end.

Definition run (t : State) (evs : list Event) : State :=
  fold_left handle evs t.

(** *** Actions *)

(** The audio set-up after the two socket calls is outside the model. *)
Definition startSession (t : State) : State :=
  withHook (sendMessage "session-started" (PRoom roomId))
    (setIsSessionActive true
      (withHook (joinRoom roomId) t)).

Definition endSession (t : State) : State :=
  withHook (sendMessage "session-ended" (PRoom roomId))
    (setIsRecording false
      (setIsMicrophoneOn false
        (setIsSessionActive false t))).

Definition toggleMicrophone (t : State) : State :=
  withHook (sendMessage "microphone-toggle"
              (PMicrophone (negb (isMicrophoneOn t)) roomId))
    (setIsMicrophoneOn (negb (isMicrophoneOn t)) t).

Definition startRecording (t : State) : State :=
  withHook (sendMessage "recording-started" (PRoom roomId))
    (setIsRecording true t).

Definition stopRecording (t : State) : State :=
  withHook (sendMessage "recording-stopped" (PRoom roomId))
    (setIsRecording false t).

(** [now] is [Date.now()], [date] is [new Date()]. *)
Definition sendChatMessage (now date : Z) (t : State) : State :=
  if Js.truthy (Js.trim (newMessage t)) then
    let message := {| msg_id := pretty now;
                      msg_text := newMessage t;
                      msg_sender := "Teacher";
                      msg_timestamp := date |} in
    setNewMessage EmptyString
      (setMessages (fun prev => prev ++ [message])
        (withHook (sendMessage "chat-message" (PChat message)) t))
  else t.

Definition nonBlank (opt : string) : bool := Js.truthy (Js.trim opt).

Definition createPoll (t : State) : State :=
  if Js.truthy (pollQuestion t)
     && (2 <=? List.length (List.filter nonBlank (pollOptions t)))%nat
  then
    let poll := {| question := pollQuestion t;
                   options := List.filter nonBlank (pollOptions t);
                   responses := ∅ |} in
    setPollOptions [EmptyString; EmptyString]
      (setPollQuestion EmptyString
        (withHook (sendMessage "poll-created" (PPoll poll))
          (setCurrentPoll (Some poll) t)))
  else t.

Definition closePoll (t : State) : State :=
  setCurrentPoll None
    (withHook (sendMessage "poll-closed" PEmpty) t).

(** *** What the poll card renders *)

(** [currentPoll.responses[option] || 0] *)
Definition votesShown (p : Poll) (opt : string) : JsValue :=
  orZero (readResponse (responses p) opt).

Definition tally (p : Poll) : list (string * JsValue) :=
  map (fun opt => (opt, votesShown p opt)) (options p).

End TeacherInterface.

(** ** StudentInterface.tsx *)

Module StudentInterface.
Import UseSocket.

(** The cells for recordings, volume and the simulated connection quality
    take no part in the session core and are left out. *)
Record State := mkState {
  hook : Hook;
  isInClass : bool;
  sessionActive : bool;
  messages : list Message;
  newMessage : string;
  currentPoll : option Poll;
  selectedPollOption : string;
  hasVoted : bool
}.

Definition roomId : string := "classroom-main".

Definition initial : State :=
  {| hook := UseSocket.initial;
     isInClass := false; sessionActive := false;
     messages := []; newMessage := EmptyString;
     currentPoll := None; selectedPollOption := EmptyString; hasVoted := false |}.

Definition withHook (f : Hook -> Hook) (s : State) : State :=
  mkState (f (hook s)) (isInClass s) (sessionActive s) (messages s)
          (newMessage s) (currentPoll s) (selectedPollOption s) (hasVoted s).

Definition setIsInClass (b : bool) (s : State) : State :=
  mkState (hook s) b (sessionActive s) (messages s)
          (newMessage s) (currentPoll s) (selectedPollOption s) (hasVoted s).

Definition setSessionActive (b : bool) (s : State) : State :=
  mkState (hook s) (isInClass s) b (messages s)
          (newMessage s) (currentPoll s) (selectedPollOption s) (hasVoted s).

Definition setMessages (f : list Message -> list Message) (s : State) : State :=
  mkState (hook s) (isInClass s) (sessionActive s) (f (messages s))
          (newMessage s) (currentPoll s) (selectedPollOption s) (hasVoted s).

Definition setNewMessage (v : string) (s : State) : State :=
  mkState (hook s) (isInClass s) (sessionActive s) (messages s)
          v (currentPoll s) (selectedPollOption s) (hasVoted s).

Definition setCurrentPoll (p : option Poll) (s : State) : State :=
  mkState (hook s) (isInClass s) (sessionActive s) (messages s)
          (newMessage s) p (selectedPollOption s) (hasVoted s).

Definition setSelectedPollOption (v : string) (s : State) : State :=
  mkState (hook s) (isInClass s) (sessionActive s) (messages s)
          (newMessage s) (currentPoll s) v (hasVoted s).

Definition setHasVoted (b : bool) (s : State) : State :=
  mkState (hook s) (isInClass s) (sessionActive s) (messages s)
          (newMessage s) (currentPoll s) (selectedPollOption s) b.

(** *** Handlers of socket events *)

Inductive Event :=
| SessionStarted
| SessionEnded
| ChatMessage (m : Message)
| PollCreated (p : Poll)
| PollClosed
| MicrophoneToggle (isOn : bool)
| RecordingStarted
| RecordingStopped.

Definition handle (ev : Event) (s : State) : State :=
  match ev with
  | SessionStarted => setSessionActive true s
  | SessionEnded => setIsInClass false (setSessionActive false s)
  | ChatMessage m => setMessages (fun prev => prev ++ [m]) s
  | PollCreated p =>
      setSelectedPollOption EmptyString (setHasVoted false (setCurrentPoll (Some p) s))
  | PollClosed => setHasVoted false (setCurrentPoll None s)
  | MicrophoneToggle _ => s
  | RecordingStarted => s
  | RecordingStopped => s
  end.

(** *** Actions *)

Definition joinClass (studentName : string) (s : State) : State :=
  withHook (sendMessage "student-joined" (PStudent studentName roomId))
    (setIsInClass true
      (withHook (joinRoom roomId) s)).

Definition leaveClass (studentName : string) (s : State) : State :=
  withHook (sendMessage "student-left" (PStudent studentName roomId))
    (setIsInClass false s).

Definition sendChatMessage (studentName : string) (now date : Z) (s : State)
    : State :=
  if Js.truthy (Js.trim (newMessage s)) then
    let message := {| msg_id := pretty now;
                      msg_text := newMessage s;
                      msg_sender := studentName;
                      msg_timestamp := date |} in
    setNewMessage EmptyString
      (setMessages (fun prev => prev ++ [message])
        (withHook (sendMessage "chat-message" (PChat message)) s))
  else s.

Definition submitPollResponse (s : State) : State :=
  if Js.truthy (selectedPollOption s) && negb (hasVoted s) then
    setHasVoted true
      (withHook (sendMessage "poll-response" (PResponse (selectedPollOption s))) s)
  else s.

Inductive Action :=
| JoinClass (studentName : string)
| LeaveClass (studentName : string)
| TypeMessage (v : string)
| SendChatMessage (studentName : string) (now date : Z)
| SelectPollOption (v : string)
| SubmitPollResponse.

Definition act (a : Action) (s : State) : State :=
  match a with
  | JoinClass n => joinClass n s
  | LeaveClass n => leaveClass n s
  | TypeMessage v => setNewMessage v s
  | SendChatMessage n now date => sendChatMessage n now date s
  | SelectPollOption v => setSelectedPollOption v s
  | SubmitPollResponse => submitPollResponse s
  end.

(** The [disabled] attribute (or absence from the page) of the control
    behind each action. *)
Definition enabled (a : Action) (s : State) : bool :=
  match a with
  | JoinClass _ => negb (isInClass s) && isConnected (hook s) && sessionActive s
  | LeaveClass _ => isInClass s
  | TypeMessage _ => isInClass s
  | SendChatMessage _ _ _ => isInClass s
  | SelectPollOption _ =>
      bool_decide (is_Some (currentPoll s)) && negb (hasVoted s)
  | SubmitPollResponse =>
      bool_decide (is_Some (currentPoll s)) && negb (hasVoted s)
      && Js.truthy (selectedPollOption s)
  end.

(** One thing that happens to a mounted student client. *)
Inductive Step :=
| Transport (ev : SocketEvent)
| Receive (ev : Event)
| Do (a : Action).

Definition step (s : State) (x : Step) : State :=
  match x with
  | Transport ev => withHook (UseSocket.handle ev) s
  | Receive ev => handle ev s
  | Do a => act a s
  end.

Definition run (s : State) (xs : list Step) : State :=
  fold_left step xs s.

(** The option of a ["poll-response"] message, if it is one. *)
Definition voteOf (m : string * Payload) : option string :=
  match m with
  | ("poll-response", PResponse opt) => Some opt
  | _ => None
  end.

(** The ["poll-response"] messages among what the client has emitted. *)
Definition votesSent (s : State) : list string :=
  omap voteOf (emitted (hook s)).

(** The step neither opens nor closes a poll on this client. *)
Definition samePoll (x : Step) : bool :=
  match x with
  | Receive (PollCreated _) => false
  | Receive PollClosed => false
  | _ => true
  end.

(** Every action of the run goes through a control that is enabled when
    it is used. *)
Fixpoint allowed (s : State) (xs : list Step) : bool :=
  match xs with
  | [] => true
  | x :: xs' =>
      match x with
      | Do a => enabled a s
      | _ => true
      end && allowed (step s x) xs'
  end.

End StudentInterface.

(** ** The room as the specification describes it, and the clients together *)

Module Classroom.
Import UseSocket.

(** *** Votes *)

(** A vote as the specification has it: who voted, and for which option.
    The ["poll-response"] payload of the source carries the option only. *)
Definition Vote : Type := string * string.

Definition voter (v : Vote) : string := v.1.
Definition choice (v : Vote) : string := v.2.

(** What the teacher client receives for a vote. *)
Definition received (v : Vote) : TeacherInterface.Event :=
  TeacherInterface.PollResponse (choice v).

(** The poll of the teacher client after it has counted the given
    responses one after the other. *)
Definition counted (p : Poll) (opts : list string) : Poll :=
  fold_left (fun q opt => TeacherInterface.countResponse opt q) opts p.

(** Stated from the specification: the [votes] mapping of a poll, from
    participant id to chosen option, last write wins. *)
Definition votesMapping (vs : list Vote) : gmap string string :=
  fold_left (fun m v => <[voter v := choice v]> m) vs ∅.

(** Stated from the specification: the tally is the count, per option, of
    the entries of [votes]. *)
Definition mappingTally (m : gmap string string) (opt : string) : nat :=
  size (filter (fun kv => kv.2 = opt) m).

(** How many of the given responses name the option. *)
Definition occurrences (opt : string) (opts : list string) : nat :=
  List.length (List.filter (String.eqb opt) opts).

(** *** Presence *)

Inductive RoomOp :=
| Join (participantId : string)
| Leave (participantId : string).

(** Stated from the specification: the participant ids that have joined
    and not yet left. *)
Definition present (ops : list RoomOp) : gset string :=
  fold_left (fun members o =>
               match o with
               | Join pid => members ∪ {[pid]}
               | Leave pid => members ∖ {[pid]}
               end) ops ∅.

(** A join or leave as it reaches the teacher client: the event name says
    which of the two it was, the payload is a number. *)
Record Delivery := mkDelivery {
  op : RoomOp;
  count : Z
}.

Definition toEvent (d : Delivery) : TeacherInterface.Event :=
  match op d with
  | Join _ => TeacherInterface.StudentJoined (count d)
  | Leave _ => TeacherInterface.StudentLeft (count d)
  end.

(** Every payload is the number of members right after its own join or
    leave, [seen] being the operations before it. *)
Fixpoint derivedFrom (seen : list RoomOp) (ds : list Delivery) : bool :=
  match ds with
  | [] => true
  | d :: ds' =>
      bool_decide (count d = Z.of_nat (size (present (seen ++ [op d]))))
      && derivedFrom (seen ++ [op d]) ds'
  end.

(** *** The clients of one room *)

(** Modelled from the spec: the relay between the clients is not in the
    source. An event emitted by one client is delivered, unchanged and in
    emission order, to the handler every other client has registered
    under the same name (the Broadcast Log's fan-out). The join and leave
    notices, which reach the teacher as a number, are not relayed
    unchanged and are left out. *)
Definition toTeacher (m : string * Payload) : option TeacherInterface.Event :=
  match m with
  | ("chat-message", PChat c) => Some (TeacherInterface.ChatMessage c)
  | ("poll-response", PResponse opt) => Some (TeacherInterface.PollResponse opt)
  | _ => None
  end.

(** Modelled from the spec: see [toTeacher]. *)
Definition toStudent (m : string * Payload) : option StudentInterface.Event :=
  match m with
  | ("session-started", _) => Some StudentInterface.SessionStarted
  | ("session-ended", _) => Some StudentInterface.SessionEnded
  | ("chat-message", PChat c) => Some (StudentInterface.ChatMessage c)
  | ("poll-created", PPoll p) => Some (StudentInterface.PollCreated p)
  | ("poll-closed", _) => Some StudentInterface.PollClosed
  | ("microphone-toggle", PMicrophone b _) =>
      Some (StudentInterface.MicrophoneToggle b)
  | ("recording-started", _) => Some StudentInterface.RecordingStarted
  | ("recording-stopped", _) => Some StudentInterface.RecordingStopped
  | _ => None
  end.

Record World := mkWorld {
  teacher : TeacherInterface.State;
  students : list StudentInterface.State
}.

(** What a client has emitted between two of its states. *)
Definition fresh (before after : Hook) : list (string * Payload) :=
  drop (List.length (emitted before)) (emitted after).

Definition deliverToStudent (out : list (string * Payload))
    (s : StudentInterface.State) : StudentInterface.State :=
  fold_left (fun s' ev => StudentInterface.handle ev s') (omap toStudent out) s.

Definition deliverToTeacher (out : list (string * Payload))
    (t : TeacherInterface.State) : TeacherInterface.State :=
  TeacherInterface.run t (omap toTeacher out).

Definition teacherDoes (f : TeacherInterface.State -> TeacherInterface.State)
    (w : World) : World :=
  let t' := f (teacher w) in
  let out := fresh (TeacherInterface.hook (teacher w)) (TeacherInterface.hook t') in
  {| teacher := t'; students := map (deliverToStudent out) (students w) |}.

Definition studentDoes (i : nat)
    (f : StudentInterface.State -> StudentInterface.State) (w : World) : World :=
  match students w !! i with
  | None => w
  | Some s =>
      let s' := f s in
      let out := fresh (StudentInterface.hook s) (StudentInterface.hook s') in
      {| teacher := deliverToTeacher out (teacher w);
         students := imap (fun j sj => if decide (j = i) then s'
                                       else deliverToStudent out sj)
                          (students w) |}
  end.

(** A mounted hook whose socket has connected. *)
Definition online : Hook := on_connect (mount UseSocket.initial).

(** A teacher and two students, all connected. *)
Definition classOfTwo : World :=
  {| teacher := TeacherInterface.withHook (fun _ => online) TeacherInterface.initial;
     students := [StudentInterface.withHook (fun _ => online) StudentInterface.initial;
                  StudentInterface.withHook (fun _ => online) StudentInterface.initial] |}.

Definition votes (i : nat) (opt : string) (w : World) : World :=
  studentDoes i StudentInterface.submitPollResponse
    (studentDoes i (StudentInterface.setSelectedPollOption opt) w).

(** The teacher creates the poll Q1 with options A and B; Student1 votes
    A, Student2 votes B, Student1 votes again, for B. *)
Definition scenarioQ1 : World :=
  votes 0 "B"
    (votes 1 "B"
      (votes 0 "A"
        (teacherDoes TeacherInterface.createPoll
          (teacherDoes (TeacherInterface.setPollOptions ["A"; "B"])
            (teacherDoes (TeacherInterface.setPollQuestion "Q1") classOfTwo))))).

(** The poll form after a connected teacher has typed Q1, A, nothing
    and B. *)
Definition formWithBlank : TeacherInterface.State :=
  TeacherInterface.setPollOptions ["A"; EmptyString; "B"]
    (TeacherInterface.setPollQuestion "Q1" (teacher classOfTwo)).

(** The tally on the teacher's poll card when the teacher closes the poll. *)
Definition tallyAtClose (w : World) : option (list (string * JsValue)) :=
  TeacherInterface.tally <$> TeacherInterface.currentPoll (teacher w).

End Classroom.

(** ** Sequences of calls on the hook *)

Module HookCalls.
Import UseSocket.

(** What can happen to a hook: an event of its socket, a call of one of the
    three functions it returns, and the cleanup of its mount effect. *)
Inductive Op :=
| Event (ev : SocketEvent)
| Send (event : string) (data : Payload)
| JoinRoom (roomId : string)
| LeaveRoom (roomId : string)
| Unmount.

Definition apply (h : Hook) (o : Op) : Hook :=
  match o with
  | Event ev => handle ev h
  | Send event data => sendMessage event data h
  | JoinRoom roomId => joinRoom roomId h
  | LeaveRoom roomId => leaveRoom roomId h
  | Unmount => unmount h
  end.

Definition run (h : Hook) (ops : list Op) : Hook :=
  fold_left apply ops h.

Definition isServerDisconnect (o : Op) : bool :=
  match o with
  | Event (EvDisconnect reason) => bool_decide (reason = serverDisconnect)
  | _ => false
  end.

Definition isUnmount (o : Op) : bool :=
  match o with
  | Unmount => true
  | _ => false
  end.

Definition isDisconnectCall (c : SocketCall) : bool :=
  match c with
  | Disconnect => true
  | _ => false
  end.

(** The [connect()] and the [disconnect()] calls in the log of a socket. *)
Definition connects (s : Socket) : nat :=
  List.length (List.filter isConnectCall (calls s)).

Definition disconnects (s : Socket) : nat :=
  List.length (List.filter isDisconnectCall (calls s)).

(** How often the code has called [disconnect()] on the socket. *)
Definition disconnectCalls (h : Hook) : nat :=
  match socket h with
  | Some s => List.length (List.filter isDisconnectCall (calls s))
  | None => 0
  end.

(** Between the two hook states the socket was asked to send some more
    messages, all under one of the given event names, and nothing it had
    been asked to send before was dropped. *)
Definition emitsOnly (names : list string) (h h' : Hook) : Prop :=
  exists out, emitted h' = emitted h ++ out
              /\ Forall (fun m => m.1 ∈ names) out.

End HookCalls.

(** ** The controls of the teacher page *)

Module TeacherControls.
Import UseSocket TeacherInterface.

Inductive Action :=
| StartSession
| EndSession
| ToggleMicrophone
| StartRecording
| StopRecording
| TypeMessage (v : string)
| SendChatMessage (now date : Z)
| TypeQuestion (v : string)
| TypeOption (index : nat) (v : string)
| AddOption
| CreatePoll
| ClosePoll.

(** The [onChange] of the option input at [index] copies [pollOptions] and
    replaces the entry at [index]; an input exists for the indices of
    [pollOptions] only. *)
Definition act (a : Action) (t : State) : State :=
  match a with
  | StartSession => startSession t
  | EndSession => endSession t
  | ToggleMicrophone => toggleMicrophone t
  | StartRecording => startRecording t
  | StopRecording => stopRecording t
  | TypeMessage v => setNewMessage v t
  | SendChatMessage now date => sendChatMessage now date t
  | TypeQuestion v => setPollQuestion v t
  | TypeOption index v => setPollOptions (<[index := v]> (pollOptions t)) t
  | AddOption => setPollOptions (pollOptions t ++ [EmptyString]) t
  | CreatePoll => createPoll t
  | ClosePoll => closePoll t
  end.

Definition noPoll (t : State) : bool :=
  match currentPoll t with
  | Some _ => false
  | None => true
  end.

(** The [disabled] attribute (or absence from the page) of the control
    behind each action. *)
Definition enabled (a : Action) (t : State) : bool :=
  match a with
  | StartSession => negb (isSessionActive t) && isConnected (hook t)
  | EndSession => isSessionActive t
  | ToggleMicrophone => isSessionActive t
  | StartRecording => negb (isRecording t) && isSessionActive t
  | StopRecording => isRecording t
  | TypeMessage _ => true
  | SendChatMessage _ _ => true
  | TypeQuestion _ => noPoll t
  | TypeOption index _ => noPoll t && (index <? List.length (pollOptions t))%nat
  | AddOption => noPoll t
  | CreatePoll => noPoll t && Js.truthy (pollQuestion t)
  | ClosePoll => negb (noPoll t)
  end.

(** One thing that happens to a mounted teacher client. *)
Inductive Step :=
| Transport (ev : SocketEvent)
| Receive (ev : Event)
| Do (a : Action).

Definition step (t : State) (x : Step) : State :=
  match x with
  | Transport ev => withHook (UseSocket.handle ev) t
  | Receive ev => handle t ev
  | Do a => act a t
  end.

Definition run (t : State) (xs : list Step) : State :=
  fold_left step xs t.

(** Every action of the run goes through a control that is enabled when
    it is used. *)
Fixpoint allowed (t : State) (xs : list Step) : bool :=
  match xs with
  | [] => true
  | x :: xs' =>
      match x with
      | Do a => enabled a t
      | _ => true
      end && allowed (step t x) xs'
  end.

(** The sum of the given values if all of them are numbers. *)
Fixpoint sumOfNumbers (vs : list JsValue) : option nat :=
  match vs with
  | [] => Some 0%nat
  | JsNumber n :: rest =>
      match sumOfNumbers rest with
      | Some total => Some (n + total)%nat
      | None => None
      end
  | _ :: _ => None
  end.

(** The sum of the counts on the poll card, if the card shows a number for
    every option. *)
Definition shownTotal (p : Poll) : option nat :=
  sumOfNumbers (map (votesShown p) (options p)).

(** The option is one of the options of the poll. *)
Definition listed (p : Poll) (opt : string) : bool :=
  bool_decide (opt ∈ options p).

(** A poll as the form is meant to produce it: a question, and at least
    two options, none of them blank. *)
Definition wellFormed (p : Poll) : Prop :=
  Js.truthy (question p) = true
  /\ (2 <= List.length (options p))%nat
  /\ Forall (fun opt => Js.hasInk opt = true) (options p).

(** The event names the teacher page passes to the hook. *)
Definition eventNames : list string :=
  ["join-room"; "session-started"; "session-ended"; "microphone-toggle";
   "recording-started"; "recording-stopped"; "chat-message";
   "poll-created"; "poll-closed"].

End TeacherControls.

(** ** The controls of the student page *)

Module StudentControls.
Import UseSocket StudentInterface.

(** The control behind the action is enabled, and a poll option is
    selected through one of the radio buttons, of which there is one per
    option of the current poll. *)
Definition offered (a : Action) (s : State) : bool :=
  enabled a s
  && match a with
     | SelectPollOption v =>
         match currentPoll s with
         | Some p => bool_decide (v ∈ options p)
         | None => false
         end
     | _ => true
     end.

Fixpoint permitted (s : State) (xs : list Step) : bool :=
  match xs with
  | [] => true
  | x :: xs' =>
      match x with
      | Do a => offered a s
      | _ => true
      end && permitted (step s x) xs'
  end.

(** How many of the emitted messages carry the given event name. *)
Definition sent (event : string) (s : State) : nat :=
  List.length (List.filter (fun m => String.eqb (fst m) event) (emitted (hook s))).

(** The selected option is empty or one of the options of the current
    poll. *)
Definition selectionFits (s : State) : Prop :=
  forall p, currentPoll s = Some p ->
            selectedPollOption s = EmptyString \/ selectedPollOption s ∈ options p.

(** A student page whose mount effect has run. *)
Definition mounted : State := withHook mount initial.

(** The socket exists; no more leaves than joins have been announced, and
    fewer while the student is in class. *)
Definition balanced (s : State) : Prop :=
  is_Some (socket (hook s))
  /\ (sent "student-left" s <= sent "student-joined" s)%nat
  /\ (isInClass s = true -> (sent "student-left" s < sent "student-joined" s)%nat).

(** The event names the student page passes to the hook. *)
Definition eventNames : list string :=
  ["join-room"; "student-joined"; "student-left"; "chat-message";
   "poll-response"].

End StudentControls.

(** ** InteractiveQuiz.tsx, and the score the home page keeps *)

Module InteractiveQuiz.

Record QuizQuestion := mkQuestion {
  id : string;
  question : string;
  options : list string;
  correctAnswer : Z;
  explanation : option string
}.

(** The props without [title], which only the rendering reads; they are
    the same on every render. [onComplete] says whether the parent passed
    a callback. *)
Record Props := mkProps {
  questions : list QuizQuestion;
  onComplete : bool
}.

(** A value of type [number | null] as it can occur at run time. *)
Inductive Value :=
| Null
| Undefined
| Num (n : Z).

(** A slot of a JavaScript array: a hole (no property at that index) or a
    value. *)
Inductive Slot :=
| Hole
| Filled (v : Value).

(** [reported] is the list of calls of [onComplete], oldest first. *)
Record State := mkState {
  currentQuestionIndex : nat;
  selectedAnswer : Value;
  answers : list Slot;
  showResult : bool;
  quizCompleted : bool;
  score : nat;
  reported : list (nat * nat)
}.

(** [new Array(questions.length).fill(null)] *)
Definition blank (props : Props) : list Slot :=
  replicate (List.length (questions props)) (Filled Null).

Definition initial (props : Props) : State :=
  {| currentQuestionIndex := 0;
     selectedAnswer := Null;
     answers := blank props;
     showResult := false;
     quizCompleted := false;
     score := 0;
     reported := [] |}.

(** [array[i]]: a hole and an index past the end both read as
    [undefined]. *)
Definition read (array : list Slot) (i : nat) : Value :=
  match array !! i with
  | Some (Filled v) => v
  | Some Hole => Undefined
  | None => Undefined
  end.

(** [[...array]]: holes become [undefined]. *)
Definition spread (array : list Slot) : list Slot :=
  map (fun slot => match slot with
                   | Hole => Filled Undefined
                   | Filled v => Filled v
                   end) array.

(** [array[i] = v]: past the end the array is extended, with holes in
    between. *)
Definition write (i : nat) (v : Value) (array : list Slot) : list Slot :=
  if decide (i < List.length array)%nat
  then <[i := Filled v]> array
  else array ++ replicate (i - List.length array) Hole ++ [Filled v].

(** [answer === correctAnswer], the right side being a number. *)
Definition strictEq (answer : Value) (correctAnswer : Z) : bool :=
  match answer with
  | Num n => Z.eqb n correctAnswer
  | _ => false
  end.

Definition isNull (v : Value) : bool :=
  match v with
  | Null => true
  | _ => false
  end.

(** The result of a handler that may dereference [undefined]. The state
    React commits after an uncaught exception is not modelled. *)
Inductive Outcome (A : Type) :=
| Done (a : A)
| TypeError.
Arguments Done {A} a.
Arguments TypeError {A}.

(** The [forEach] of [completeQuiz], from [index] on: holes are skipped;
    [questions[index].correctAnswer] throws when there is no such
    question. *)
Fixpoint countCorrect (qs : list QuizQuestion) (index : nat)
    (finalAnswers : list Slot) (correctCount : nat) : option nat :=
  match finalAnswers with
  | [] => Some correctCount
  | Hole :: rest => countCorrect qs (S index) rest correctCount
  | Filled answer :: rest =>
      match qs !! index with
      | Some q =>
          countCorrect qs (S index) rest
            (if strictEq answer (correctAnswer q) then S correctCount else correctCount)
      | None => None
      end
  end.

Definition completeQuiz (props : Props) (finalAnswers : list Slot) (s : State)
    : Outcome State :=
  match countCorrect (questions props) 0 finalAnswers 0 with
  | Some correctCount =>
      Done {| currentQuestionIndex := currentQuestionIndex s;
              selectedAnswer := selectedAnswer s;
              answers := answers s;
              showResult := showResult s;
              quizCompleted := true;
              score := correctCount;
              reported := if onComplete props
                          then reported s
                               ++ [(correctCount, List.length (questions props))]
                          else reported s |}
  | None => TypeError
  end.

Definition handleAnswerSelect (answerIndex : Z) (s : State) : State :=
  {| currentQuestionIndex := currentQuestionIndex s;
     selectedAnswer := Num answerIndex;
     answers := answers s;
     showResult := showResult s;
     quizCompleted := quizCompleted s;
     score := score s;
     reported := reported s |}.

Definition handleNext (props : Props) (s : State) : Outcome State :=
  if isNull (selectedAnswer s) then Done s
  else
    let newAnswers :=
      write (currentQuestionIndex s) (selectedAnswer s) (spread (answers s)) in
    if (Z.of_nat (currentQuestionIndex s)
        <? Z.of_nat (List.length (questions props)) - 1)%Z
    then
      Done {| currentQuestionIndex := currentQuestionIndex s + 1;
              selectedAnswer := read (answers s) (currentQuestionIndex s + 1);
              answers := newAnswers;
              showResult := false;
              quizCompleted := quizCompleted s;
              score := score s;
              reported := reported s |}
    else
      completeQuiz props newAnswers
        {| currentQuestionIndex := currentQuestionIndex s;
           selectedAnswer := selectedAnswer s;
           answers := newAnswers;
           showResult := showResult s;
           quizCompleted := quizCompleted s;
           score := score s;
           reported := reported s |}.

Definition handlePrevious (s : State) : State :=
  if (0 <? currentQuestionIndex s)%nat then
    {| currentQuestionIndex := currentQuestionIndex s - 1;
       selectedAnswer := read (answers s) (currentQuestionIndex s - 1);
       answers := answers s;
       showResult := false;
       quizCompleted := quizCompleted s;
       score := score s;
       reported := reported s |}
  else s.

Definition handleSubmitAnswer (s : State) : State :=
  {| currentQuestionIndex := currentQuestionIndex s;
     selectedAnswer := selectedAnswer s;
     answers := answers s;
     showResult := true;
     quizCompleted := quizCompleted s;
     score := score s;
     reported := reported s |}.

Definition restartQuiz (props : Props) (s : State) : State :=
  {| currentQuestionIndex := 0;
     selectedAnswer := Null;
     answers := blank props;
     showResult := false;
     quizCompleted := false;
     score := 0;
     reported := reported s |}.

Inductive Action :=
| AnswerSelect (answerIndex : Z)
| Next
| Previous
| SubmitAnswer
| Restart.

Definition act (props : Props) (a : Action) (s : State) : Outcome State :=
  match a with
  | AnswerSelect answerIndex => Done (handleAnswerSelect answerIndex s)
  | Next => handleNext props s
  | Previous => Done (handlePrevious s)
  | SubmitAnswer => Done (handleSubmitAnswer s)
  | Restart => Done (restartQuiz props s)
  end.

Fixpoint run (props : Props) (s : State) (acts : list Action) : Outcome State :=
  match acts with
  | [] => Done s
  | a :: rest =>
      match act props a s with
      | Done s' => run props s' rest
      | TypeError => TypeError
      end
  end.

(** The radio buttons of the current question: one per option. *)
Definition isOptionIndex (props : Props) (s : State) (answerIndex : Z) : bool :=
  match questions props !! currentQuestionIndex s with
  | Some q => (0 <=? answerIndex)%Z && (answerIndex <? Z.of_nat (List.length (options q)))%Z
  | None => false
  end.

(** The control behind each action, as rendered: nothing without
    questions; only the restart button once the quiz is completed; the
    radio buttons and the submit button until the answer is submitted, the
    next button after. *)
Definition enabled (props : Props) (a : Action) (s : State) : bool :=
  match questions props with
  | [] => false
  | _ :: _ =>
      if quizCompleted s then
        match a with
        | Restart => true
        | _ => false
        end
      else
        match a with
        | AnswerSelect answerIndex =>
            negb (showResult s) && isOptionIndex props s answerIndex
        | SubmitAnswer => negb (showResult s) && negb (isNull (selectedAnswer s))
        | Next => showResult s
        | Previous => negb (currentQuestionIndex s =? 0)%nat
        | Restart => false
        end
  end.

(** Every action of the run goes through a control that is there, and
    enabled, when it is used; after an exception nothing is. *)
Fixpoint allowed (props : Props) (s : State) (acts : list Action) : bool :=
  match acts with
  | [] => true
  | a :: rest =>
      enabled props a s
      && match act props a s with
         | Done s' => allowed props s' rest
         | TypeError => false
         end
  end.

(** The slot holds a number. *)
Definition isAnswered (slot : Slot) : bool :=
  match slot with
  | Filled (Num _) => true
  | _ => false
  end.

(** The slot holds [null] or a number. *)
Definition isPlain (slot : Slot) : bool :=
  match slot with
  | Filled Null => true
  | Filled (Num _) => true
  | _ => false
  end.

(** The answers that are the correct answer of their question. *)
Definition correctOnes (qs : list QuizQuestion) (array : list Slot)
    : list (QuizQuestion * Slot) :=
  List.filter (fun qa => match snd qa with
                         | Filled answer => strictEq answer (correctAnswer (fst qa))
                         | Hole => false
                         end)
              (zip qs array).

(** [quizScore] of the home page while the quiz is on the page:
    [handleQuizComplete] stores the arguments of the last call of
    [onComplete]. *)
Definition quizScore (s : State) : option (nat * nat) :=
  List.last (map Some (reported s)) None.

(** The state keeps one plain slot per question and a valid index. *)
Definition tidy (props : Props) (s : State) : Prop :=
  List.length (answers s) = List.length (questions props)
  /\ (currentQuestionIndex s < List.length (questions props))%nat
  /\ Forall (fun slot => isPlain slot = true) (answers s)
  /\ isPlain (Filled (selectedAnswer s)) = true.

(** What the page keeps besides tidiness when it is driven through its
    controls: a submitted answer is an answer; the questions before the
    current one are answered; and once the quiz is completed every question
    is answered, the score is the number of correct answers, and the home
    page has been told. *)
Definition guided (props : Props) (s : State) : Prop :=
  tidy props s
  /\ (showResult s = true -> isNull (selectedAnswer s) = false)
  /\ Forall (fun slot => isAnswered slot = true)
            (take (currentQuestionIndex s) (answers s))
  /\ (quizCompleted s = true ->
      Forall (fun slot => isAnswered slot = true) (answers s)
      /\ score s = List.length (correctOnes (questions props) (answers s))
      /\ (onComplete props = true ->
          quizScore s = Some (score s, List.length (questions props)))).

(** [sampleQuizQuestions] of the home page, passed with a callback. *)
Definition sampleQuiz : Props :=
  {| questions :=
       [ {| id := "1";
            question := "What is the primary advantage of low-bandwidth optimization in rural education?";
            options := ["Better video quality"; "Reduced data consumption";
                        "Faster internet speeds"; "More storage space"];
            correctAnswer := 1;
            explanation := Some "Low-bandwidth optimization reduces data consumption, making education accessible even with poor internet connectivity." |};
         {| id := "2";
            question := "Which technology is most suitable for real-time communication in low-bandwidth environments?";
            options := ["4K Video streaming"; "Audio-first communication";
                        "High-resolution images"; "Large file transfers"];
            correctAnswer := 1;
            explanation := Some "Audio-first communication requires significantly less bandwidth while maintaining effective real-time interaction." |} ];
     onComplete := true |}.

End InteractiveQuiz.
(** * Properties *)

(** ** Strings *)

Section JsFacts.
Import Js.

Lemma hasInk_trimStart (s : string) : hasInk (trimStart s) = hasInk s.
Proof.
  induction s as [|c s IH]; simpl; [reflexivity|].
  destruct (isWhiteSpace c) eqn:Hc; simpl; [exact IH|].
  rewrite Hc. reflexivity.
Qed.

Lemma truthy_trimEnd (s : string) : truthy (trimEnd s) = hasInk s.
Proof.
  induction s as [|c s IH]; simpl; [reflexivity|].
  destruct (trimEnd s) eqn:Ht; simpl in *.
  - rewrite <- IH. destruct (isWhiteSpace c); reflexivity.
  - rewrite <- IH. apply eq_sym, orb_true_r.
Qed.

(** [s.trim()] is truthy exactly when [s] has a character that is not
    white space. *)
Lemma truthy_trim (s : string) : truthy (trim s) = hasInk s.
Proof. unfold trim. rewrite truthy_trimEnd. apply hasInk_trimStart. Qed.

Lemma hasInk_truthy (s : string) : hasInk s = true -> truthy s = true.
Proof. destruct s; simpl; [discriminate | reflexivity]. Qed.

End JsFacts.

(** ** The socket hook *)

Section HookFacts.
Import UseSocket.

Lemma connected_true (h : Hook) :
  connected h = true <-> (exists s, socket h = Some s) /\ isConnected h = true.
Proof.
  unfold connected. destruct (socket h) as [s|]; split.
  - intros H. split; [exists s; reflexivity | exact H].
  - intros [_ H]. exact H.
  - discriminate.
  - intros [[s Hs] _]. discriminate.
Qed.

Lemma emitted_call_Emit (h : Hook) (s : Socket) (e : string) (d : Payload) b err :
  socket h = Some s ->
  emitted (mkHook (Some (call (Emit e d) s)) b err) = emitted h ++ [(e, d)].
Proof.
  intros Hs. unfold emitted. rewrite Hs. simpl.
  rewrite omap_app. reflexivity.
Qed.

Lemma emitted_sendMessage (e : string) (d : Payload) (h : Hook) :
  emitted (sendMessage e d h)
  = emitted h ++ (if connected h then [(e, d)] else []).
Proof.
  unfold sendMessage, connected.
  destruct (socket h) as [s|] eqn:Hs.
  - destruct (isConnected h).
    + apply emitted_call_Emit. exact Hs.
    + unfold emitted. simpl. rewrite Hs, app_nil_r. reflexivity.
  - unfold emitted. simpl. rewrite Hs. reflexivity.
Qed.

Lemma emitted_joinRoom (r : string) (h : Hook) :
  emitted (joinRoom r h)
  = emitted h ++ (if connected h then [("join-room", PRoomId r)] else []).
Proof.
  unfold joinRoom, connected.
  destruct (socket h) as [s|] eqn:Hs.
  - destruct (isConnected h).
    + apply emitted_call_Emit. exact Hs.
    + rewrite app_nil_r. reflexivity.
  - rewrite app_nil_r. reflexivity.
Qed.

Lemma connected_sendMessage (e : string) (d : Payload) (h : Hook) :
  connected (sendMessage e d h) = connected h.
Proof.
  unfold sendMessage, connected.
  destruct (socket h) as [s|] eqn:Hs; [destruct (isConnected h) eqn:Hc|];
    simpl; rewrite ?Hs, ?Hc; reflexivity.
Qed.

Lemma connected_joinRoom (r : string) (h : Hook) :
  connected (joinRoom r h) = connected h.
Proof.
  unfold joinRoom, connected.
  destruct (socket h) as [s|] eqn:Hs; [destruct (isConnected h) eqn:Hc|];
    simpl; rewrite ?Hs, ?Hc; reflexivity.
Qed.

Lemma emitted_handle (ev : SocketEvent) (h : Hook) :
  emitted (handle ev h) = emitted h.
Proof.
  destruct ev; try reflexivity.
  unfold handle, on_disconnect, emitted. simpl.
  case_bool_decide; [|reflexivity].
  destruct (socket h) as [s|]; simpl; [|reflexivity].
  rewrite omap_app. simpl. apply app_nil_r.
Qed.

Lemma fresh_app (before after : Hook) (out : list (string * Payload)) :
  emitted after = emitted before ++ out -> Classroom.fresh before after = out.
Proof.
  intros H. unfold Classroom.fresh. rewrite H.
  apply drop_app_length.
Qed.

End HookFacts.

Section Connection.
Import UseSocket.

Lemma sendMessage_connected (e : string) (d : Payload) (h : Hook) :
  connected h = true ->
  exists s, socket h = Some s
    /\ sendMessage e d h
       = {| socket := Some (call (Emit e d) s);
            isConnected := isConnected h; error := error h |}.
Proof.
  intros Hc. apply connected_true in Hc as [[s Hs] Hi].
  exists s. split; [exact Hs|].
  unfold sendMessage. rewrite Hs, Hi. reflexivity.
Qed.

Lemma sendMessage_not_connected (e : string) (d : Payload) (h : Hook) :
  connected h = false ->
  sendMessage e d h
  = {| socket := socket h; isConnected := isConnected h;
       error := notConnectedMessage |}.
Proof.
  unfold connected, sendMessage.
  destruct (socket h) as [s|]; [|reflexivity].
  intros ->. reflexivity.
Qed.

(** C5. [sendMessage] looks at nothing but the guard [socket && isConnected].
    When the guard fails, nothing is handed to the socket and the error
    cell is set to the not-connected text; when it holds, exactly the
    given event and payload are handed to the socket, in one call, and the
    error cell is left alone. The result is a function of the hook state
    alone (no acknowledgement is read), and in both cases the connection
    flag, the [connect()] calls and every cell of the teacher and of the
    student component other than the hook are as before. *)
Theorem sendMessage_gated (h : Hook) (event : string) (data : Payload) :
  emitted (sendMessage event data h)
    = emitted h ++ (if connected h then [(event, data)] else [])
  /\ error (sendMessage event data h)
    = (if connected h then error h else notConnectedMessage)
  /\ isConnected (sendMessage event data h) = isConnected h
  /\ connectCalls (sendMessage event data h) = connectCalls h
  /\ (forall t : TeacherInterface.State,
        let t' := TeacherInterface.withHook (sendMessage event data) t in
        TeacherInterface.connectedStudents t' = TeacherInterface.connectedStudents t
        /\ TeacherInterface.currentPoll t' = TeacherInterface.currentPoll t
        /\ TeacherInterface.messages t' = TeacherInterface.messages t
        /\ TeacherInterface.isSessionActive t' = TeacherInterface.isSessionActive t)
  /\ (forall s : StudentInterface.State,
        let s' := StudentInterface.withHook (sendMessage event data) s in
        StudentInterface.currentPoll s' = StudentInterface.currentPoll s
        /\ StudentInterface.messages s' = StudentInterface.messages s
        /\ StudentInterface.hasVoted s' = StudentInterface.hasVoted s
        /\ StudentInterface.isInClass s' = StudentInterface.isInClass s
        /\ StudentInterface.sessionActive s' = StudentInterface.sessionActive s).
Proof.
  split; [apply emitted_sendMessage|].
  assert (Hrest : error (sendMessage event data h)
                    = (if connected h then error h else notConnectedMessage)
                  /\ isConnected (sendMessage event data h) = isConnected h
                  /\ connectCalls (sendMessage event data h) = connectCalls h).
  { destruct (connected h) eqn:Hc.
    - destruct (sendMessage_connected event data h Hc) as (s & Hs & ->).
      repeat split. unfold connectCalls. simpl. rewrite Hs.
      unfold call. simpl. rewrite List.filter_app. simpl.
      rewrite length_app. simpl. lia.
    - rewrite (sendMessage_not_connected event data h Hc).
      repeat split. }
  destruct Hrest as (He & Hi & Hn).
  repeat split; assumption.
Qed.

(** C6, as the source has it. [joinRoom] and [leaveRoom] do what
    [sendMessage] does with the ["join-room"] or ["leave-room"] event and
    the room id when the guard [socket && isConnected] holds; when it
    fails they change nothing: no error is reported. *)
Theorem joinRoom_leaveRoom_quiet (h : Hook) (roomId : string) :
  joinRoom roomId h
    = (if connected h then sendMessage "join-room" (PRoomId roomId) h else h)
  /\ leaveRoom roomId h
    = (if connected h then sendMessage "leave-room" (PRoomId roomId) h else h).
Proof.
  unfold joinRoom, leaveRoom, sendMessage, connected.
  destruct (socket h) as [s|]; [|split; reflexivity].
  destruct (isConnected h); split; reflexivity.
Qed.

(** C6 fails as stated: on a mounted hook that is not connected,
    [joinRoom] leaves the error cell empty where [sendMessage] of the
    same message fills it, and so does [leaveRoom]. *)
Lemma joinRoom_is_not_sendMessage :
  let h := mount UseSocket.initial in
  connected h = false
  /\ error (sendMessage "join-room" (PRoomId "classroom-main") h)
     = "Cannot send message. Not connected to server."
  /\ error (joinRoom "classroom-main" h) = EmptyString
  /\ joinRoom "classroom-main" h
     <> sendMessage "join-room" (PRoomId "classroom-main") h
  /\ leaveRoom "classroom-main" h
     <> sendMessage "leave-room" (PRoomId "classroom-main") h.
Proof.
  repeat split; try reflexivity; intros H;
    apply (f_equal error) in H; discriminate H.
Qed.

(** C9. When the socket reports a disconnect with the reason
    ["io server disconnect"], the handler calls [connect()] on the socket,
    once, so a new connection attempt is under way; it clears the
    connection flag and leaves the error cell as it was, so no failure is
    reported by this step. *)
Theorem server_disconnect_reconnects (h : Hook) (s : Socket) :
  socket h = Some s ->
  let h' := handle (EvDisconnect "io server disconnect") h in
  socket h' = Some (call Connect s)
  /\ connectCalls h' = S (connectCalls h)
  /\ isConnected h' = false
  /\ error h' = error h
  /\ emitted h' = emitted h.
Proof.
  intros Hs h'. subst h'.
  split; [|split; [|split; [|split]]].
  - simpl. rewrite Hs. reflexivity.
  - unfold connectCalls. simpl. rewrite Hs. simpl.
    rewrite List.filter_app, length_app. simpl. lia.
  - reflexivity.
  - reflexivity.
  - apply emitted_handle.
Qed.

Lemma server_disconnect_reconnects_witness :
  socket Classroom.online = Some io
  /\ connectCalls (handle (EvDisconnect "io server disconnect") Classroom.online) = 1
  /\ error (handle (EvDisconnect "io server disconnect") Classroom.online) = EmptyString.
Proof.
  split; [reflexivity|].
  destruct (server_disconnect_reconnects Classroom.online io eq_refl)
    as (_ & Hn & _ & He & _).
  split; [exact Hn | exact He].
Defined.

End Connection.

(** ** The teacher client *)

Section Teacher.
Import UseSocket TeacherInterface.

Lemma closePoll_closes (t : State) : currentPoll (closePoll t) = None.
Proof. reflexivity. Qed.

Lemma on_poll_response_open (t : State) (p : Poll) (opt : string) :
  currentPoll t = Some p ->
  on_poll_response opt t = setCurrentPoll (Some (countResponse opt p)) t.
Proof. intros H. unfold on_poll_response. rewrite H. reflexivity. Qed.

(** C4. While the teacher client has no open poll (the state [closePoll]
    leaves behind), a ["poll-response"] changes nothing at all: the state,
    and with it anything shown as a tally, is as before. Even a handler
    that subscribed while a poll was still open never produces a poll out
    of the closed state. *)
Theorem vote_after_close_ignored (t : State) (opt : string) :
  currentPoll t = None ->
  handle t (PollResponse opt) = t
  /\ (forall captured p,
        pollResponseHandler captured opt (currentPoll t) <> Done (Some p)).
Proof.
  intros Hclosed. split.
  - simpl. unfold on_poll_response. rewrite Hclosed. simpl.
    destruct t; simpl in *. subst. reflexivity.
  - intros captured p. rewrite Hclosed.
    destruct captured; simpl; discriminate.
Qed.

Lemma vote_after_close_ignored_witness :
  let t := closePoll (Classroom.teacher Classroom.scenarioQ1) in
  currentPoll t = None /\ handle t (PollResponse "A") = t.
Proof.
  intros t. split; [reflexivity|].
  exact (proj1 (vote_after_close_ignored t "A" eq_refl)).
Defined.

Lemma filter_nonBlank_hasInk (l : list string) :
  Forall (fun opt => Js.hasInk opt = true) (List.filter nonBlank l).
Proof.
  apply List.Forall_forall. intros opt Hin.
  apply List.filter_In in Hin as [_ Hnb].
  unfold nonBlank in Hnb. rewrite truthy_trim in Hnb. exact Hnb.
Qed.

(** C8, as the source has it. The page offers [createPoll] only while no
    poll is open and the question is not empty, so a creation never finds
    an open poll. [createPoll] acts when the question is not empty and at
    least two of the typed options are not blank; blank options are
    dropped, not refused. The new poll keeps the non-blank options in order
    (so it has at least two, each with a character that is not white
    space) and starts with no responses (so the card shows 0 for every
    option that names no member of [Object.prototype]); it becomes
    [currentPoll], the one thing handed to [sendMessage] is
    ["poll-created"] with the new poll, and the form is reset. Otherwise
    [createPoll] changes nothing and reports nothing. *)
Theorem createPoll_filters_options (t : State) :
  let kept := List.filter nonBlank (pollOptions t) in
  let poll := {| question := pollQuestion t; options := kept; responses := ∅ |} in
  (TeacherControls.enabled TeacherControls.CreatePoll t = true ->
     currentPoll t = None /\ Js.truthy (pollQuestion t) = true)
  /\ (Js.truthy (pollQuestion t) = true -> (2 <= List.length kept)%nat ->
     currentPoll (createPoll t) = Some poll
     /\ Forall (fun opt => Js.hasInk opt = true) (options poll)
     /\ responses poll = ∅
     /\ (forall opt, Js.inheritedKey opt = false -> votesShown poll opt = JsNumber 0)
     /\ hook (createPoll t) = sendMessage "poll-created" (PPoll poll) (hook t)
     /\ Classroom.fresh (hook t) (hook (createPoll t))
        = (if connected (hook t) then [("poll-created", PPoll poll)] else [])
     /\ pollQuestion (createPoll t) = EmptyString
     /\ pollOptions (createPoll t) = [EmptyString; EmptyString])
  /\ (Js.truthy (pollQuestion t) = false \/ (List.length kept < 2)%nat ->
      createPoll t = t).
Proof.
  intros kept poll. split; [|split].
  - unfold TeacherControls.enabled, TeacherControls.noPoll. intros Hen.
    apply andb_true_iff in Hen as [Hnone Hq].
    destruct (currentPoll t); [discriminate Hnone|]. split; [reflexivity | exact Hq].
  - intros Hq Hlen. unfold createPoll. fold kept. rewrite Hq.
    apply Nat.leb_le in Hlen. rewrite Hlen. simpl. fold poll.
    split; [reflexivity|]. split; [apply filter_nonBlank_hasInk|].
    split; [reflexivity|]. split.
    { intros opt Hord. unfold votesShown, readResponse. simpl.
      rewrite lookup_empty, Hord. reflexivity. }
    split; [reflexivity|]. split; [apply fresh_app, emitted_sendMessage|].
    split; reflexivity.
  - intros Hbad. unfold createPoll. fold kept.
    destruct Hbad as [Hq | Hlen].
    + rewrite Hq. reflexivity.
    + apply Nat.leb_gt in Hlen. rewrite Hlen, andb_false_r. reflexivity.
Qed.

Lemma createPoll_filters_options_witness :
  currentPoll Classroom.formWithBlank = None
  /\ currentPoll (createPoll Classroom.formWithBlank)
     = Some {| question := "Q1"; options := ["A"; "B"]; responses := ∅ |}.
Proof.
  split.
  - exact (proj1 (proj1 (createPoll_filters_options Classroom.formWithBlank) eq_refl)).
  - refine (proj1 (proj1 (proj2 (createPoll_filters_options Classroom.formWithBlank)) _ _)).
    + reflexivity.
    + vm_compute. lia.
Defined.

(** C8 fails as stated. A connected teacher with no open poll types the
    question Q1, adds a third option field and fills the first with A and
    the third with B: one of the typed options is empty, the create button
    is enabled, and [createPoll] creates the poll with options A and B,
    hands it to the socket and reports nothing. *)
Lemma createPoll_accepts_blank_option :
  Classroom.formWithBlank
  = TeacherControls.run (Classroom.teacher Classroom.classOfTwo)
      [TeacherControls.Do (TeacherControls.TypeQuestion "Q1");
       TeacherControls.Do TeacherControls.AddOption;
       TeacherControls.Do (TeacherControls.TypeOption 0 "A");
       TeacherControls.Do (TeacherControls.TypeOption 2 "B")]
  /\ In EmptyString (pollOptions Classroom.formWithBlank)
  /\ TeacherControls.enabled TeacherControls.CreatePoll Classroom.formWithBlank = true
  /\ currentPoll (createPoll Classroom.formWithBlank)
     = Some {| question := "Q1"; options := ["A"; "B"]; responses := ∅ |}
  /\ Classroom.fresh (hook Classroom.formWithBlank)
       (hook (createPoll Classroom.formWithBlank))
     = [("poll-created",
         PPoll {| question := "Q1"; options := ["A"; "B"]; responses := ∅ |})]
  /\ error (hook (createPoll Classroom.formWithBlank)) = EmptyString.
Proof.
  split; [reflexivity|].
  split; [right; left; reflexivity|].
  repeat split; vm_compute; reflexivity.
Qed.

(** *** The connected-students badge *)

Lemma last_cons_default (z y : Z) (l : list Z) :
  List.last (y :: l) z = List.last l y.
Proof.
  revert y z. induction l as [|x l IH]; intros y z; [reflexivity|].
  change (List.last (x :: l) z = List.last (x :: l) y).
  rewrite (IH x z), (IH x y). reflexivity.
Qed.

Lemma badge_is_last_payload (t : State) (ds : list Classroom.Delivery) :
  connectedStudents (run t (map Classroom.toEvent ds))
  = List.last (map Classroom.count ds) (connectedStudents t).
Proof.
  revert t. induction ds as [|d ds IH]; intros t; [reflexivity|].
  change (connectedStudents
            (run (handle t (Classroom.toEvent d)) (map Classroom.toEvent ds))
          = List.last (Classroom.count d :: map Classroom.count ds)
                      (connectedStudents t)).
  rewrite IH, last_cons_default. f_equal.
  unfold Classroom.toEvent. destruct (Classroom.op d); reflexivity.
Qed.

Lemma derived_last (seen : list Classroom.RoomOp) (ds : list Classroom.Delivery) (z : Z) :
  Classroom.derivedFrom seen ds = true ->
  ds <> [] ->
  List.last (map Classroom.count ds) z
  = Z.of_nat (size (Classroom.present (seen ++ map Classroom.op ds))).
Proof.
  revert seen z. induction ds as [|d ds IH]; intros seen z Hd Hne; [congruence|].
  simpl in Hd. apply andb_true_iff in Hd as [Hc Hrest].
  apply bool_decide_eq_true in Hc.
  cbn [map]. rewrite last_cons_default.
  destruct ds as [|d' ds].
  - simpl. exact Hc.
  - rewrite (IH (seen ++ [Classroom.op d]) (Classroom.count d) Hrest); [|discriminate].
    rewrite <- app_assoc. reflexivity.
Qed.

(** C2, as the source has it. The badge shows the number carried by the
    last ["student-joined"] or ["student-left"] event (0 before any); the
    handlers keep no record of who joined or left. So the badge equals
    the number of participants that have joined and not left exactly as
    far as the sender puts that number into each event: when every
    payload is the member count after its own join or leave, the badge is
    the member count after the whole sequence. *)
Theorem badge_shows_last_payload (ds : list Classroom.Delivery) :
  connectedStudents (run initial (map Classroom.toEvent ds))
    = List.last (map Classroom.count ds) 0%Z
  /\ (Classroom.derivedFrom [] ds = true ->
      connectedStudents (run initial (map Classroom.toEvent ds))
      = Z.of_nat (size (Classroom.present (map Classroom.op ds)))).
Proof.
  split; [apply badge_is_last_payload|].
  intros Hd. rewrite badge_is_last_payload.
  destruct ds as [|d ds]; [reflexivity|].
  apply (derived_last [] (d :: ds) _ Hd). discriminate.
Qed.

Lemma badge_shows_last_payload_witness :
  connectedStudents
    (run initial
       [StudentJoined 1; StudentJoined 2; StudentLeft 1]) = 1%Z
  /\ size (Classroom.present
             [Classroom.Join "Student_1"; Classroom.Join "Student_2";
              Classroom.Leave "Student_1"]) = 1%nat.
Proof.
  split; [|vm_compute; reflexivity].
  exact (proj2 (badge_shows_last_payload
                  [Classroom.mkDelivery (Classroom.Join "Student_1") 1;
                   Classroom.mkDelivery (Classroom.Join "Student_2") 2;
                   Classroom.mkDelivery (Classroom.Leave "Student_1") 1])
               eq_refl).
Defined.

(** C2 fails as stated: one student joins and the event carries 5; the
    badge shows 5 although one participant is present. *)
Lemma badge_can_drift :
  let ds := [Classroom.mkDelivery (Classroom.Join "Student_1") 5] in
  connectedStudents (run initial (map Classroom.toEvent ds)) = 5%Z
  /\ size (Classroom.present (map Classroom.op ds)) = 1%nat.
Proof. split; vm_compute; reflexivity. Qed.

End Teacher.

(** ** The student client *)

Section Student.
Import UseSocket StudentInterface.

Lemma votesSent_grows (s s' : State) (out : list (string * Payload)) :
  emitted (hook s') = emitted (hook s) ++ out ->
  votesSent s' = votesSent s ++ omap voteOf out.
Proof.
  intros H. unfold votesSent. rewrite H. apply omap_app.
Qed.

Lemma votesSent_same_hook (s s' : State) :
  hook s' = hook s -> votesSent s' = votesSent s.
Proof. intros H. unfold votesSent. rewrite H. reflexivity. Qed.

Lemma submitPollResponse_fires (s : State) :
  Js.truthy (selectedPollOption s) = true ->
  hasVoted s = false ->
  hasVoted (submitPollResponse s) = true
  /\ votesSent (submitPollResponse s)
     = votesSent s ++ (if connected (hook s) then [selectedPollOption s] else []).
Proof.
  intros Hsel Hv. unfold submitPollResponse. rewrite Hsel, Hv. simpl.
  split; [reflexivity|].
  erewrite votesSent_grows; [|simpl; apply emitted_sendMessage].
  destruct (connected (hook s)); reflexivity.
Qed.

Lemma submitPollResponse_latched (s : State) :
  hasVoted s = true -> submitPollResponse s = s.
Proof.
  intros Hv. unfold submitPollResponse. rewrite Hv, andb_false_r. reflexivity.
Qed.

(** One step that neither opens nor closes a poll either sends no vote
    and leaves the latch alone, or sets the latch, which was clear, and
    sends at most one vote. *)
Lemma step_votes (s : State) (x : Step) :
  samePoll x = true ->
  exists out,
    votesSent (step s x) = votesSent s ++ out
    /\ ((out = [] /\ hasVoted (step s x) = hasVoted s)
        \/ (hasVoted s = false /\ hasVoted (step s x) = true
            /\ (List.length out <= 1)%nat)).
Proof.
  intros Hx. destruct x as [ev | ev | a].
  - exists []. rewrite app_nil_r. split; [|left; split; reflexivity].
    unfold votesSent. simpl. rewrite emitted_handle. reflexivity.
  - exists []. rewrite app_nil_r. split; [|left; split; [reflexivity|]].
    + destruct ev; try discriminate Hx; reflexivity.
    + destruct ev; try discriminate Hx; reflexivity.
  - destruct a as [n | n | v | n now date | v |]; simpl.
    + exists []. split; [|left; split; reflexivity].
      unfold joinClass.
      erewrite votesSent_grows; [|simpl; rewrite emitted_sendMessage,
        emitted_joinRoom, connected_joinRoom; rewrite <- app_assoc; reflexivity].
      destruct (connected (hook s)); reflexivity.
    + exists []. split; [|left; split; reflexivity].
      unfold leaveClass.
      erewrite votesSent_grows; [|simpl; apply emitted_sendMessage].
      destruct (connected (hook s)); reflexivity.
    + exists []. rewrite app_nil_r. split; [reflexivity | left; split; reflexivity].
    + exists []. split.
      * unfold sendChatMessage.
        destruct (Js.truthy (Js.trim (newMessage s))); [|rewrite app_nil_r; reflexivity].
        erewrite votesSent_grows; [|simpl; apply emitted_sendMessage].
        destruct (connected (hook s)); reflexivity.
      * left. split; [reflexivity|].
        unfold sendChatMessage.
        destruct (Js.truthy (Js.trim (newMessage s))); reflexivity.
    + exists []. rewrite app_nil_r. split; [reflexivity | left; split; reflexivity].
    + destruct (Js.truthy (selectedPollOption s)) eqn:Hsel;
        [destruct (hasVoted s) eqn:Hv|].
      * exists []. rewrite app_nil_r, (submitPollResponse_latched s Hv).
        split; [reflexivity | left; split; [reflexivity | congruence]].
      * destruct (submitPollResponse_fires s Hsel Hv) as [Hl Hs].
        eexists. split; [exact Hs|]. right. split; [reflexivity|].
        split; [exact Hl|]. destruct (connected (hook s)); simpl; lia.
      * exists []. rewrite app_nil_r. unfold submitPollResponse. rewrite Hsel.
        split; [reflexivity | left; split; reflexivity].
Qed.

Lemma latched_run (xs : list Step) (s : State) :
  forallb samePoll xs = true ->
  hasVoted s = true ->
  votesSent (run s xs) = votesSent s /\ hasVoted (run s xs) = true.
Proof.
  revert s. induction xs as [|x xs IH]; intros s Hxs Hv; [split; [reflexivity | exact Hv]|].
  simpl in Hxs. apply andb_true_iff in Hxs as [Hx Hxs].
  change (run s (x :: xs)) with (run (step s x) xs).
  destruct (step_votes s x Hx) as (out & Hout & [[-> Hsame] | [Hf _]]).
  - rewrite app_nil_r in Hout. rewrite Hv in Hsame.
    destruct (IH (step s x) Hxs Hsame) as [IH1 IH2].
    split; [congruence | exact IH2].
  - congruence.
Qed.

Lemma votes_bounded_run (xs : list Step) (s : State) :
  forallb samePoll xs = true ->
  (List.length (votesSent (run s xs)) <= List.length (votesSent s) + 1)%nat.
Proof.
  revert s. induction xs as [|x xs IH]; intros s Hxs; [simpl; lia|].
  simpl in Hxs. apply andb_true_iff in Hxs as [Hx Hxs].
  change (run s (x :: xs)) with (run (step s x) xs).
  destruct (step_votes s x Hx) as (out & Hout & [[-> Hsame] | (Hf & Ht & Hlen)]).
  - rewrite app_nil_r in Hout. rewrite <- Hout. apply IH, Hxs.
  - destruct (latched_run xs (step s x) Hxs Ht) as [Heq _].
    rewrite Heq, Hout, length_app. lia.
Qed.

(** C10. Between two poll events ([poll-created], [poll-closed]) a
    student client sends at most one ["poll-response"], whatever else
    happens to it. A submission with an option selected and the latch
    clear sets [hasVoted] (and sends the option when connected); once
    [hasVoted] is set, no step sends a vote and the latch stays set; the
    only steps that clear a set latch are the arrival of [poll-created]
    and of [poll-closed], and both do clear it. *)
Theorem one_vote_per_poll (s : State) (xs : list Step) :
  forallb samePoll xs = true ->
  (List.length (votesSent (run s xs)) <= List.length (votesSent s) + 1)%nat
  /\ (hasVoted s = true ->
      votesSent (run s xs) = votesSent s /\ hasVoted (run s xs) = true)
  /\ (hasVoted s = true -> submitPollResponse s = s)
  /\ (Js.truthy (selectedPollOption s) = true -> hasVoted s = false ->
      hasVoted (submitPollResponse s) = true
      /\ votesSent (submitPollResponse s)
         = votesSent s ++ (if connected (hook s) then [selectedPollOption s] else []))
  /\ (forall x, hasVoted s = true -> hasVoted (step s x) = false ->
                samePoll x = false)
  /\ (forall p, hasVoted (handle (PollCreated p) s) = false)
  /\ hasVoted (handle PollClosed s) = false.
Proof.
  intros Hxs.
  split; [apply votes_bounded_run, Hxs|].
  split; [apply latched_run, Hxs|].
  split; [apply submitPollResponse_latched|].
  split; [apply submitPollResponse_fires|].
  split; [|split; [intros p|]; reflexivity].
  intros x Hv Hc. destruct (samePoll x) eqn:Hx; [|reflexivity].
  destruct (step_votes s x Hx) as (out & _ & [[_ Hsame] | [Hf _]]); congruence.
Qed.

Lemma one_vote_per_poll_witness :
  let s := setCurrentPoll
             (Some {| question := "Q1"; options := ["A"; "B"]; responses := ∅ |})
             (withHook (fun _ => Classroom.online) initial) in
  let xs := [Do (SelectPollOption "A"); Do SubmitPollResponse;
             Do (SelectPollOption "B"); Do SubmitPollResponse] in
  (List.length (votesSent (run s xs)) <= 1)%nat.
Proof.
  intros s xs.
  exact (proj1 (one_vote_per_poll s xs eq_refl)).
Defined.



End Student.

(** ** Chat *)

Section Chat.
Import UseSocket.






End Chat.

(** ** Polls *)

Section Tally.
Import UseSocket TeacherInterface Classroom.

Lemma readResponse_insert_eq (rs : gmap string JsValue) (a : string) (v : JsValue) :
  readResponse (<[a := v]> rs) a = Some v.
Proof. unfold readResponse. rewrite lookup_insert_eq. reflexivity. Qed.

Lemma readResponse_insert_ne (rs : gmap string JsValue) (a b : string) (v : JsValue) :
  a <> b -> readResponse (<[a := v]> rs) b = readResponse rs b.
Proof. intros Hne. unfold readResponse. rewrite lookup_insert_ne by exact Hne. reflexivity. Qed.

Lemma countResponse_comm (a b : string) (p : Poll) :
  countResponse a (countResponse b p) = countResponse b (countResponse a p).
Proof.
  destruct (decide (a = b)) as [->|Hne]; [reflexivity|].
  unfold countResponse. simpl. f_equal.
  rewrite (readResponse_insert_ne (responses p) b a) by exact (not_eq_sym Hne).
  rewrite (readResponse_insert_ne (responses p) a b) by exact Hne.
  apply insert_insert_ne. exact Hne.
Qed.

Lemma counted_cons (p : Poll) (opt : string) (opts : list string) :
  counted p (opt :: opts) = counted (countResponse opt p) opts.
Proof. reflexivity. Qed.

Lemma counted_perm (opts opts' : list string) :
  opts ≡ₚ opts' -> forall p, counted p opts = counted p opts'.
Proof.
  induction 1 as [|x l l' _ IH|x y l|l l' l'' _ IH1 _ IH2]; intros p.
  - reflexivity.
  - rewrite !counted_cons. apply IH.
  - rewrite !counted_cons, countResponse_comm. reflexivity.
  - rewrite IH1. apply IH2.
Qed.

Lemma votesShown_countResponse_same (p : Poll) (o : string) :
  votesShown (countResponse o p) o = plusOne (votesShown p o).
Proof.
  unfold votesShown, countResponse. simpl.
  rewrite readResponse_insert_eq. reflexivity.
Qed.

Lemma votesShown_countResponse_other (p : Poll) (o opt : string) :
  opt <> o -> votesShown (countResponse o p) opt = votesShown p opt.
Proof.
  intros Hne. unfold votesShown, countResponse. simpl.
  rewrite readResponse_insert_ne by exact (not_eq_sym Hne). reflexivity.
Qed.

(** Where the card shows a number, a response adds one to it if it names
    the option and leaves it alone otherwise. *)
Lemma votesShown_countResponse (p : Poll) (o opt : string) (n : nat) :
  votesShown p opt = JsNumber n ->
  votesShown (countResponse o p) opt
  = JsNumber (n + (if String.eqb opt o then 1 else 0)).
Proof.
  intros Hn. destruct (String.eqb_spec opt o) as [->|Hne].
  - rewrite votesShown_countResponse_same, Hn. reflexivity.
  - rewrite votesShown_countResponse_other by exact Hne.
    rewrite Hn, Nat.add_0_r. reflexivity.
Qed.

Lemma votesShown_counted (opts : list string) (p : Poll) (opt : string) (n : nat) :
  votesShown p opt = JsNumber n ->
  votesShown (counted p opts) opt = JsNumber (n + occurrences opt opts).
Proof.
  revert p n. induction opts as [|o opts IH]; intros p n Hn.
  - simpl. unfold occurrences. simpl. rewrite Nat.add_0_r. exact Hn.
  - rewrite counted_cons.
    rewrite (IH _ _ (votesShown_countResponse p o opt n Hn)).
    unfold occurrences. simpl.
    destruct (String.eqb opt o); simpl; f_equal; lia.
Qed.

(** On a poll without responses the card shows 0 for an option that names
    no member of [Object.prototype], and the member itself for one that
    does. *)
Lemma votesShown_new (p : Poll) (opt : string) :
  responses p = ∅ ->
  votesShown p opt
  = (if Js.inheritedKey opt then JsMember opt else JsNumber 0).
Proof.
  intros Hnew. unfold votesShown, readResponse. rewrite Hnew, lookup_empty.
  destruct (Js.inheritedKey opt); reflexivity.
Qed.

(** An option named like a member of [Object.prototype]: the new poll shows
    the inherited member in place of a count, and a response stores the
    text of the member followed by the character 1. *)
Example inherited_option_stores_text :
  let p := {| question := "Q1"; options := ["constructor"; "A"]; responses := ∅ |} in
  tally p = [("constructor", JsMember "constructor"); ("A", JsNumber 0)]
  /\ tally (counted p ["constructor"; "A"; "constructor"])
     = [("constructor", JsMemberText "constructor" 2); ("A", JsNumber 1)].
Proof. split; vm_compute; reflexivity. Qed.

Lemma run_received (vs : list Vote) (t : State) (p : Poll) :
  currentPoll t = Some p ->
  run t (map received vs)
  = setCurrentPoll (Some (counted p (map choice vs))) t.
Proof.
  revert t p. induction vs as [|v vs IH]; intros t p Hp.
  - simpl. destruct t; simpl in *. subst. reflexivity.
  - change (run (handle t (received v)) (map received vs)
            = setCurrentPoll
                (Some (counted (countResponse (choice v) p) (map choice vs))) t).
    change (handle t (received v)) with (on_poll_response (choice v) t).
    rewrite (on_poll_response_open t p (choice v) Hp).
    rewrite (IH _ (countResponse (choice v) p)); reflexivity.
Qed.

Lemma votesMapping_snoc (vs : list Vote) (v : Vote) :
  votesMapping (vs ++ [v]) = <[voter v := choice v]> (votesMapping vs).
Proof. unfold votesMapping. rewrite fold_left_app. reflexivity. Qed.

Lemma votesMapping_fresh (vs : list Vote) (k : string) :
  k ∉ map voter vs -> votesMapping vs !! k = None.
Proof.
  induction vs as [|v vs IH] using rev_ind; intros Hk.
  - apply lookup_empty.
  - rewrite map_app in Hk. simpl in Hk.
    rewrite votesMapping_snoc, lookup_insert_ne.
    + apply IH. intros Hin. apply Hk, elem_of_app. left. exact Hin.
    + intros Heq. apply Hk, elem_of_app. right. rewrite <- Heq.
      apply list_elem_of_singleton. reflexivity.
Qed.

Lemma occurrences_snoc (opt c : string) (l : list string) :
  occurrences opt (l ++ [c])
  = (occurrences opt l + (if String.eqb opt c then 1 else 0))%nat.
Proof.
  unfold occurrences. rewrite List.filter_app, length_app. simpl.
  destruct (String.eqb opt c); reflexivity.
Qed.

(** With one vote per participant the tally of the votes mapping counts
    the votes themselves. *)
Lemma mappingTally_single_votes (vs : list Vote) (opt : string) :
  NoDup (map voter vs) ->
  mappingTally (votesMapping vs) opt = occurrences opt (map choice vs).
Proof.
  induction vs as [|v vs IH] using rev_ind; intros Hnd.
  - unfold mappingTally, votesMapping. simpl.
    rewrite map_filter_empty. apply map_size_empty.
  - rewrite map_app in Hnd. simpl in Hnd.
    apply NoDup_app in Hnd as (Hnd & Hfresh & _).
    assert (Hk : votesMapping vs !! voter v = None).
    { apply votesMapping_fresh. intros Hin.
      apply (Hfresh _ Hin), list_elem_of_singleton. reflexivity. }
    rewrite votesMapping_snoc, map_app. cbn [map].
    rewrite occurrences_snoc.
    rewrite <- (IH Hnd). unfold mappingTally.
    destruct (String.eqb_spec opt (choice v)) as [Heq|Hne].
    + rewrite map_filter_insert_True by (simpl; congruence).
      rewrite map_size_insert_None; [lia|].
      apply map_lookup_filter_None_2. left. exact Hk.
    + rewrite map_filter_insert_not'; [lia | simpl; congruence |].
      intros y Hy. rewrite Hk in Hy. discriminate.
Qed.

(** C1, as the source has it. While a poll is open the teacher client
    adds one to the count of the named option for every
    ["poll-response"] it receives; the event names no participant and no
    vote replaces an earlier one. So, for every option for which the card
    shows a number, the tally after any sequence of votes is the earlier
    tally plus the number of received votes for that option; the state
    reached does not depend on the order of arrival; and for a new poll
    and an option that names no member of [Object.prototype] the tally
    equals that of the per-participant votes mapping when no participant
    has voted twice. *)
Theorem tally_counts_every_response (t : State) (p : Poll) (vs : list Vote) :
  currentPoll t = Some p ->
  let q := counted p (map choice vs) in
  currentPoll (run t (map received vs)) = Some q
  /\ (forall opt n,
        votesShown p opt = JsNumber n ->
        votesShown q opt = JsNumber (n + occurrences opt (map choice vs)))
  /\ (forall vs', vs' ≡ₚ vs ->
        run t (map received vs') = run t (map received vs))
  /\ (responses p = ∅ -> NoDup (map voter vs) ->
      forall opt, Js.inheritedKey opt = false ->
                  votesShown q opt = JsNumber (mappingTally (votesMapping vs) opt)).
Proof.
  intros Hp q. subst q. split; [|split; [|split]].
  - rewrite (run_received vs t p Hp). reflexivity.
  - intros opt n Hn. apply votesShown_counted, Hn.
  - intros vs' Hperm.
    rewrite (run_received vs t p Hp), (run_received vs' t p Hp).
    rewrite (counted_perm (map choice vs') (map choice vs)); [reflexivity|].
    apply fmap_Permutation. exact Hperm.
  - intros Hnew Hnd opt Hord.
    rewrite (votesShown_counted _ p opt 0), (mappingTally_single_votes vs opt Hnd);
      [reflexivity|].
    rewrite (votesShown_new p opt Hnew), Hord. reflexivity.
Qed.

Lemma tally_counts_every_response_witness :
  let vs := [("Student1", "A"); ("Student2", "B"); ("Student3", "B")] in
  let p := {| question := "Q1"; options := ["A"; "B"]; responses := ∅ |} in
  let t := setCurrentPoll (Some p) initial in
  map (votesShown (counted p (map choice vs))) ["A"; "B"]
  = map (fun opt => JsNumber (mappingTally (votesMapping vs) opt)) ["A"; "B"].
Proof.
  intros vs p t.
  destruct (tally_counts_every_response t p vs eq_refl) as (_ & _ & _ & H).
  assert (Hnd : NoDup (map voter vs)) by (apply (bool_decide_unpack _); reflexivity).
  cbn [map]. rewrite (H eq_refl Hnd "A" eq_refl), (H eq_refl Hnd "B" eq_refl).
  reflexivity.
Defined.

(** C1 fails as stated. Student1 votes A, Student2 votes B, Student1
    votes again, for B: the teacher client, having received the three
    votes, shows A 1 and B 2; the votes mapping, which keeps the last
    vote of each participant, gives A 0 and B 2. *)
Lemma revote_is_counted_again :
  let vs := [("Student1", "A"); ("Student2", "B"); ("Student1", "B")] in
  let t := createPoll
             (setPollOptions ["A"; "B"]
               (setPollQuestion "Q1" (teacher classOfTwo))) in
  (tally <$> currentPoll (run t (map received vs)))
    = Some [("A", JsNumber 1); ("B", JsNumber 2)]
  /\ map (mappingTally (votesMapping vs)) ["A"; "B"] = [0%nat; 2%nat].
Proof. split; vm_compute; reflexivity. Qed.

(** C3, as the source has it. In the scenario the second submission of
    Student1 is stopped by the [hasVoted] latch of that client, so the
    teacher receives A from Student1 and B from Student2, and the poll
    card shows A 1 and B 1 when the teacher closes the poll. Closing
    sends ["poll-closed"] with an empty payload and clears the poll. *)
Theorem scenarioQ1_tally :
  tallyAtClose scenarioQ1 = Some [("A", JsNumber 1); ("B", JsNumber 1)]
  /\ map StudentInterface.votesSent (students scenarioQ1) = [["A"]; ["B"]]
  /\ map StudentInterface.hasVoted (students scenarioQ1) = [true; true]
  /\ (let closed := closePoll (teacher scenarioQ1) in
      currentPoll closed = None
      /\ fresh (hook (teacher scenarioQ1)) (hook closed) = [("poll-closed", PEmpty)]).
Proof. vm_compute. repeat split; reflexivity. Qed.

(** C3 fails as stated: the tally at close is not A 0, B 2. *)
Lemma scenarioQ1_tally_is_not_0_2 :
  tallyAtClose scenarioQ1 <> Some [("A", JsNumber 0); ("B", JsNumber 2)].
Proof. vm_compute. discriminate. Qed.

End Tally.

(** ** The hook over sequences of calls *)

Section HookRuns.
Import UseSocket HookCalls.

Lemma run_cons (h : Hook) (o : Op) (ops : list Op) :
  run h (o :: ops) = run (apply h o) ops.
Proof. reflexivity. Qed.

Lemma connects_call (c : SocketCall) (s : Socket) :
  connects (call c s) = (connects s + (if isConnectCall c then 1 else 0))%nat.
Proof.
  unfold connects, call. simpl. rewrite List.filter_app, length_app. simpl.
  destruct (isConnectCall c); reflexivity.
Qed.

Lemma disconnects_call (c : SocketCall) (s : Socket) :
  disconnects (call c s) = (disconnects s + (if isDisconnectCall c then 1 else 0))%nat.
Proof.
  unfold disconnects, call. simpl. rewrite List.filter_app, length_app. simpl.
  destruct (isDisconnectCall c); reflexivity.
Qed.

Lemma apply_counts (h : Hook) (o : Op) (s : Socket) :
  socket h = Some s ->
  exists s', socket (apply h o) = Some s'
    /\ connects s' = (connects s + (if isServerDisconnect o then 1 else 0))%nat
    /\ disconnects s' = (disconnects s + (if isUnmount o then 1 else 0))%nat.
Proof.
  intros Hs. destruct o as [ev | e d | r | r |]; simpl.
  - destruct ev as [| | reason | n |]; simpl; rewrite ?Hs;
      try (exists s; repeat split; lia).
    case_bool_decide; simpl.
    + exists (call Connect s). rewrite connects_call, disconnects_call.
      repeat split; simpl; lia.
    + exists s. repeat split; lia.
  - unfold sendMessage. rewrite Hs. destruct (isConnected h); simpl.
    + exists (call (Emit e d) s). rewrite connects_call, disconnects_call.
      repeat split; simpl; lia.
    + exists s. rewrite ?Hs. repeat split; lia.
  - unfold joinRoom. rewrite Hs. destruct (isConnected h); simpl.
    + eexists. split; [reflexivity|]. rewrite connects_call, disconnects_call.
      simpl. lia.
    + exists s. rewrite ?Hs. repeat split; lia.
  - unfold leaveRoom. rewrite Hs. destruct (isConnected h); simpl.
    + eexists. split; [reflexivity|]. rewrite connects_call, disconnects_call.
      simpl. lia.
    + exists s. rewrite ?Hs. repeat split; lia.
  - rewrite Hs. simpl. exists (call Disconnect s).
    rewrite connects_call, disconnects_call. repeat split; simpl; lia.
Qed.

Lemma run_counts (ops : list Op) (h : Hook) (s : Socket) :
  socket h = Some s ->
  exists s', socket (run h ops) = Some s'
    /\ connects s'
       = (connects s + List.length (List.filter isServerDisconnect ops))%nat
    /\ disconnects s'
       = (disconnects s + List.length (List.filter isUnmount ops))%nat.
Proof.
  revert h s. induction ops as [|o ops IH]; intros h s Hs.
  - exists s. simpl. repeat split; [exact Hs | lia | lia].
  - rewrite run_cons.
    destruct (apply_counts h o s Hs) as (s1 & Hs1 & Hc1 & Hd1).
    destruct (IH (apply h o) s1 Hs1) as (s' & Hs' & Hc & Hd).
    exists s'. split; [exact Hs'|]. simpl.
    destruct (isServerDisconnect o), (isUnmount o); simpl; lia.
Qed.

(** X1. On a mounted hook, whatever the sequence of socket events and
    calls of [sendMessage], [joinRoom], [leaveRoom] and of the cleanup, the
    code calls [connect()] on the socket once for every disconnect event
    whose reason is ["io server disconnect"] and at no other time, and
    calls [disconnect()] once for every cleanup and at no other time. *)
Theorem connect_only_after_server_disconnect (h : Hook) (ops : list Op) :
  is_Some (socket h) ->
  connectCalls (run h ops)
    = (connectCalls h + List.length (List.filter isServerDisconnect ops))%nat
  /\ disconnectCalls (run h ops)
    = (disconnectCalls h + List.length (List.filter isUnmount ops))%nat.
Proof.
  intros [s Hs].
  destruct (run_counts ops h s Hs) as (s' & Hs' & Hc & Hd).
  unfold connectCalls, disconnectCalls. rewrite Hs, Hs'.
  split; [exact Hc | exact Hd].
Qed.

Lemma connect_only_after_server_disconnect_witness :
  connectCalls
    (run (mount UseSocket.initial)
       [Event EvConnect; Send "chat-message" PEmpty;
        Event (EvDisconnect "transport close"); Event EvConnectError;
        Event (EvDisconnect "io server disconnect"); Event EvReconnectError;
        JoinRoom "classroom-main"; Unmount]) = 1%nat.
Proof.
  refine (proj1 (connect_only_after_server_disconnect (mount UseSocket.initial) _ _)).
  eexists. reflexivity.
Defined.

Lemma apply_same_link (h1 h2 : Hook) (o : Op) :
  socket h1 = socket h2 -> isConnected h1 = isConnected h2 ->
  socket (apply h1 o) = socket (apply h2 o)
  /\ isConnected (apply h1 o) = isConnected (apply h2 o).
Proof.
  intros Hs Hc. destruct o as [ev | e d | r | r |]; simpl.
  - destruct ev; simpl; rewrite ?Hs, ?Hc; split; reflexivity.
  - unfold sendMessage. rewrite Hs, Hc.
    destruct (socket h2); [destruct (isConnected h2)|]; simpl;
      rewrite ?Hs, ?Hc; split; reflexivity.
  - unfold joinRoom. rewrite Hs, Hc.
    destruct (socket h2) eqn:E; [destruct (isConnected h2) eqn:E'|]; simpl;
      rewrite ?Hs, ?Hc, ?E, ?E'; split; reflexivity.
  - unfold leaveRoom. rewrite Hs, Hc.
    destruct (socket h2) eqn:E; [destruct (isConnected h2) eqn:E'|]; simpl;
      rewrite ?Hs, ?Hc, ?E, ?E'; split; reflexivity.
  - rewrite Hs, Hc. split; reflexivity.
Qed.

Lemma run_same_link (ops : list Op) (h1 h2 : Hook) :
  socket h1 = socket h2 -> isConnected h1 = isConnected h2 ->
  socket (run h1 ops) = socket (run h2 ops)
  /\ isConnected (run h1 ops) = isConnected (run h2 ops).
Proof.
  revert h1 h2. induction ops as [|o ops IH]; intros h1 h2 Hs Hc.
  - split; assumption.
  - rewrite !run_cons.
    destruct (apply_same_link h1 h2 o Hs Hc) as [Hs' Hc'].
    apply IH; assumption.
Qed.

(** X2. A message passed to [sendMessage] while the hook is not connected
    is lost for good: there is no queue. Whatever happens afterwards
    (reconnection, further sends), the socket is asked to send exactly what
    it would have been asked to send had the failed call never been made,
    and the connection flag is the same; the call leaves no trace but the
    text in the error cell. *)
Theorem failed_send_is_never_resent
    (h : Hook) (event : string) (data : Payload) (ops : list Op) :
  connected h = false ->
  emitted (run (sendMessage event data h) ops) = emitted (run h ops)
  /\ socket (run (sendMessage event data h) ops) = socket (run h ops)
  /\ isConnected (run (sendMessage event data h) ops) = isConnected (run h ops).
Proof.
  intros Hc.
  assert (Hlink : socket (run (sendMessage event data h) ops) = socket (run h ops)
                  /\ isConnected (run (sendMessage event data h) ops)
                     = isConnected (run h ops)).
  { apply run_same_link; rewrite (sendMessage_not_connected event data h Hc);
      reflexivity. }
  destruct Hlink as [Hs Hi]. split; [|split; assumption].
  unfold emitted. rewrite Hs. reflexivity.
Qed.

Lemma failed_send_is_never_resent_witness :
  emitted
    (run (sendMessage "poll-response" (PResponse "A") (mount UseSocket.initial))
       [Event EvConnect; Send "chat-message" PEmpty])
  = [("chat-message", PEmpty)].
Proof.
  exact (proj1 (failed_send_is_never_resent (mount UseSocket.initial)
                  "poll-response" (PResponse "A")
                  [Event EvConnect; Send "chat-message" PEmpty] eq_refl)).
Defined.

Lemma emitsOnly_refl (names : list string) (h : Hook) : emitsOnly names h h.
Proof. exists []. rewrite app_nil_r. split; [reflexivity | constructor]. Qed.

Lemma emitsOnly_same (names : list string) (h h' : Hook) :
  emitted h' = emitted h -> emitsOnly names h h'.
Proof.
  intros H. exists []. rewrite app_nil_r. split; [exact H | constructor].
Qed.

Lemma emitsOnly_trans (names : list string) (h1 h2 h3 : Hook) :
  emitsOnly names h1 h2 -> emitsOnly names h2 h3 -> emitsOnly names h1 h3.
Proof.
  intros (o1 & E1 & F1) (o2 & E2 & F2). exists (o1 ++ o2).
  split; [rewrite E2, E1, app_assoc; reflexivity|].
  apply Forall_app. split; assumption.
Qed.

Lemma emitsOnly_sendMessage (names : list string) (e : string) (d : Payload) (h : Hook) :
  e ∈ names -> emitsOnly names h (sendMessage e d h).
Proof.
  intros He. eexists. split; [apply emitted_sendMessage|].
  destruct (connected h); repeat constructor. exact He.
Qed.

Lemma emitsOnly_joinRoom (names : list string) (r : string) (h : Hook) :
  "join-room" ∈ names -> emitsOnly names h (joinRoom r h).
Proof.
  intros He. eexists. split; [apply emitted_joinRoom|].
  destruct (connected h); repeat constructor. exact He.
Qed.

Lemma emitsOnly_handle (names : list string) (ev : SocketEvent) (h : Hook) :
  emitsOnly names h (handle ev h).
Proof. apply emitsOnly_same, emitted_handle. Qed.

Lemma emitsOnly_names (names : list string) (h h' : Hook) :
  emitsOnly names h h' ->
  Forall (fun m => m.1 ∈ names) (emitted h) ->
  Forall (fun m => m.1 ∈ names) (emitted h').
Proof.
  intros (out & E & F) H. rewrite E. apply Forall_app. split; assumption.
Qed.

Lemma socket_stays (h : Hook) (o : Op) :
  is_Some (socket h) -> is_Some (socket (apply h o)).
Proof.
  intros [s Hs]. destruct (apply_counts h o s Hs) as (s' & Hs' & _).
  exists s'. exact Hs'.
Qed.

End HookRuns.

(** ** The teacher page over sequences of steps *)

Section TeacherRuns.
Import UseSocket TeacherInterface TeacherControls.

Lemma teacher_run_cons (t : State) (x : Step) (xs : list Step) :
  TeacherControls.run t (x :: xs) = TeacherControls.run (step t x) xs.
Proof. reflexivity. Qed.

(** X3. [createPoll] is idempotent: a successful call resets the form, so
    calling it again right away changes nothing (it cannot create the same
    poll twice or emit ["poll-created"] twice); an unsuccessful call
    changes nothing in the first place. *)
Theorem createPoll_idempotent (t : State) :
  createPoll (createPoll t) = createPoll t.
Proof.
  destruct (Js.truthy (pollQuestion t)
            && (2 <=? List.length (List.filter nonBlank (pollOptions t)))%nat)
    eqn:Hok.
  - assert (Hform : pollQuestion (createPoll t) = EmptyString)
      by (unfold createPoll; rewrite Hok; reflexivity).
    generalize dependent (createPoll t). intros t' Hform.
    unfold createPoll. rewrite Hform. reflexivity.
  - assert (Hsame : createPoll t = t)
      by (unfold createPoll; rewrite Hok; reflexivity).
    rewrite !Hsame. reflexivity.
Qed.

Lemma createPoll_wellFormed (t : State) (p : Poll) :
  (forall q, currentPoll t = Some q -> wellFormed q) ->
  currentPoll (createPoll t) = Some p -> wellFormed p.
Proof.
  intros Hinv. unfold createPoll.
  destruct (Js.truthy (pollQuestion t)
            && (2 <=? List.length (List.filter nonBlank (pollOptions t)))%nat)
    eqn:Hok; [|apply Hinv].
  apply andb_true_iff in Hok as [Hq Hlen].
  simpl. intros [= <-]. repeat split; simpl.
  - exact Hq.
  - apply Nat.leb_le. exact Hlen.
  - apply filter_nonBlank_hasInk.
Qed.

Lemma sendChatMessage_currentPoll (now date : Z) (t : State) :
  currentPoll (sendChatMessage now date t) = currentPoll t.
Proof.
  unfold sendChatMessage. destruct (Js.truthy (Js.trim (newMessage t))); reflexivity.
Qed.

Lemma step_wellFormed (t : State) (x : Step) :
  (forall q, currentPoll t = Some q -> wellFormed q) ->
  forall p, currentPoll (step t x) = Some p -> wellFormed p.
Proof.
  intros Hinv p. destruct x as [ev | ev | a].
  - apply Hinv.
  - destruct ev as [c | c | m | opt]; try apply Hinv.
    simpl. unfold on_poll_response.
    destruct (currentPoll t) as [q|] eqn:Hq; simpl; [|discriminate].
    intros [= <-]. exact (Hinv q eq_refl).
  - destruct a; try apply Hinv.
    + simpl. rewrite sendChatMessage_currentPoll. apply Hinv.
    + apply createPoll_wellFormed, Hinv.
    + discriminate.
Qed.

(** X4. Every poll the teacher page ever has open is well formed: it has
    a question, at least two options, and no blank option. This holds
    after any sequence of socket events, received events and actions,
    enabled or not, from a state with no poll or a well-formed one. *)
Theorem open_poll_is_well_formed (t : State) (xs : list Step) :
  (forall q, currentPoll t = Some q -> wellFormed q) ->
  forall p, currentPoll (TeacherControls.run t xs) = Some p -> wellFormed p.
Proof.
  revert t. induction xs as [|x xs IH]; intros t Hinv; [exact Hinv|].
  rewrite teacher_run_cons. apply IH. apply step_wellFormed, Hinv.
Qed.

Lemma open_poll_is_well_formed_witness :
  let xs := [Do (TypeQuestion "Q1"); Do AddOption;
             Do (TypeOption 0 "A"); Do (TypeOption 2 "B"); Do CreatePoll;
             Receive (PollResponse "A")] in
  exists p, currentPoll (TeacherControls.run (Classroom.teacher Classroom.classOfTwo) xs)
            = Some p
    /\ options p = ["A"; "B"] /\ wellFormed p.
Proof.
  intros xs. eexists. split; [reflexivity|]. split; [reflexivity|].
  apply (open_poll_is_well_formed (Classroom.teacher Classroom.classOfTwo) xs);
    [discriminate | reflexivity].
Defined.

Lemma sendChatMessage_flags (now date : Z) (t : State) :
  isSessionActive (sendChatMessage now date t) = isSessionActive t
  /\ isMicrophoneOn (sendChatMessage now date t) = isMicrophoneOn t
  /\ isRecording (sendChatMessage now date t) = isRecording t.
Proof.
  unfold sendChatMessage. destruct (Js.truthy (Js.trim (newMessage t)));
    repeat split; reflexivity.
Qed.

Lemma createPoll_flags (t : State) :
  isSessionActive (createPoll t) = isSessionActive t
  /\ isMicrophoneOn (createPoll t) = isMicrophoneOn t
  /\ isRecording (createPoll t) = isRecording t.
Proof.
  unfold createPoll.
  destruct (Js.truthy (pollQuestion t)
            && (2 <=? List.length (List.filter nonBlank (pollOptions t)))%nat);
    repeat split; reflexivity.
Qed.

Lemma on_poll_response_flags (opt : string) (t : State) :
  isSessionActive (on_poll_response opt t) = isSessionActive t
  /\ isMicrophoneOn (on_poll_response opt t) = isMicrophoneOn t
  /\ isRecording (on_poll_response opt t) = isRecording t.
Proof.
  unfold on_poll_response. destruct (currentPoll t); repeat split; reflexivity.
Qed.

Lemma step_flags (t : State) (x : Step) :
  (isMicrophoneOn t = true -> isSessionActive t = true) ->
  (isRecording t = true -> isSessionActive t = true) ->
  match x with Do a => enabled a t | _ => true end = true ->
  (isMicrophoneOn (step t x) = true -> isSessionActive (step t x) = true)
  /\ (isRecording (step t x) = true -> isSessionActive (step t x) = true).
Proof.
  intros Hmic Hrec Hen. destruct x as [ev | ev | a].
  - split; assumption.
  - destruct ev as [c | c | m | opt]; try (split; assumption).
    simpl. destruct (on_poll_response_flags opt t) as (-> & -> & ->).
    split; assumption.
  - destruct a; simpl in *; try (split; assumption).
    + split; reflexivity.
    + split; discriminate.
    + split; intros _; exact Hen.
    + apply andb_true_iff in Hen as [_ Hact]. split; intros _; exact Hact.
    + split; [exact Hmic | discriminate].
    + destruct (sendChatMessage_flags now date t) as (-> & -> & ->).
      split; assumption.
    + destruct (createPoll_flags t) as (-> & -> & ->). split; assumption.
Qed.

(** X5. Through the controls of the teacher page the microphone is on
    only while a session is active, and a recording runs only while a
    session is active: both hold after every run, from the initial state,
    that uses enabled controls only. *)
Theorem microphone_and_recording_need_session (xs : list Step) :
  allowed initial xs = true ->
  (isMicrophoneOn (TeacherControls.run initial xs) = true ->
   isSessionActive (TeacherControls.run initial xs) = true)
  /\ (isRecording (TeacherControls.run initial xs) = true ->
      isSessionActive (TeacherControls.run initial xs) = true).
Proof.
  assert (Hgen : forall ys t,
    (isMicrophoneOn t = true -> isSessionActive t = true) ->
    (isRecording t = true -> isSessionActive t = true) ->
    allowed t ys = true ->
    (isMicrophoneOn (TeacherControls.run t ys) = true ->
     isSessionActive (TeacherControls.run t ys) = true)
    /\ (isRecording (TeacherControls.run t ys) = true ->
        isSessionActive (TeacherControls.run t ys) = true)).
  { induction ys as [|y ys IH]; intros t Hmic Hrec Hal; [split; assumption|].
    simpl in Hal. apply andb_true_iff in Hal as [Hen Hal].
    rewrite teacher_run_cons.
    destruct (step_flags t y Hmic Hrec Hen) as [Hmic' Hrec'].
    apply IH; assumption. }
  intros Hal. apply Hgen; [discriminate | discriminate | exact Hal].
Qed.

Lemma microphone_and_recording_need_session_witness :
  let xs := [Transport EvConnect; Do StartSession; Do ToggleMicrophone;
             Do StartRecording] in
  isSessionActive (TeacherControls.run initial xs) = true.
Proof.
  intros xs.
  exact (proj1 (microphone_and_recording_need_session xs eq_refl) eq_refl).
Defined.

End TeacherRuns.

(** ** What the teacher page sends and shows *)

Section TeacherWire.
Import UseSocket HookCalls TeacherInterface TeacherControls.

Local Ltac name_listed := apply (bool_decide_unpack _); reflexivity.

Lemma teacher_step_emitsOnly (t : State) (x : Step) :
  emitsOnly eventNames (hook t) (hook (step t x)).
Proof.
  destruct x as [ev | ev | a].
  - apply emitsOnly_handle.
  - apply emitsOnly_same. destruct ev as [c | c | m | opt]; try reflexivity.
    simpl. unfold on_poll_response. destruct (currentPoll t); reflexivity.
  - destruct a; simpl; try apply emitsOnly_refl.
    + eapply emitsOnly_trans;
        [apply emitsOnly_joinRoom | apply emitsOnly_sendMessage]; name_listed.
    + apply emitsOnly_sendMessage. name_listed.
    + apply emitsOnly_sendMessage. name_listed.
    + apply emitsOnly_sendMessage. name_listed.
    + apply emitsOnly_sendMessage. name_listed.
    + unfold sendChatMessage. destruct (Js.truthy (Js.trim (newMessage t)));
        [|apply emitsOnly_refl].
      apply emitsOnly_sendMessage. name_listed.
    + unfold createPoll.
      destruct (Js.truthy (pollQuestion t)
                && (2 <=? List.length (List.filter nonBlank (pollOptions t)))%nat);
        [|apply emitsOnly_refl].
      apply emitsOnly_sendMessage. name_listed.
    + apply emitsOnly_sendMessage. name_listed.
Qed.

Lemma teacher_run_emitsOnly (xs : list Step) (t : State) :
  emitsOnly eventNames (hook t) (hook (TeacherControls.run t xs)).
Proof.
  revert t. induction xs as [|x xs IH]; intros t; [apply emitsOnly_refl|].
  rewrite teacher_run_cons.
  eapply emitsOnly_trans; [apply teacher_step_emitsOnly | apply IH].
Qed.

(** X6. Whatever happens to the teacher page, every message it has the
    socket send goes under one of nine event names (join-room,
    session-started, session-ended, microphone-toggle, recording-started,
    recording-stopped, chat-message, poll-created, poll-closed), and
    messages once sent stay in the log in order. In particular the teacher
    page never sends ["leave-room"]: ending the session does not take the
    socket out of the room. *)
Theorem teacher_event_names (t : State) (xs : list Step) :
  emitted (hook t) = [] ->
  Forall (fun m => m.1 ∈ eventNames) (emitted (hook (TeacherControls.run t xs)))
  /\ "leave-room" ∉ map fst (emitted (hook (TeacherControls.run t xs))).
Proof.
  intros Hnone.
  assert (Hall : Forall (fun m => m.1 ∈ eventNames)
                   (emitted (hook (TeacherControls.run t xs)))).
  { eapply emitsOnly_names; [apply teacher_run_emitsOnly|].
    rewrite Hnone. constructor. }
  split; [exact Hall|].
  intros Hin. apply list_elem_of_fmap in Hin as (m & Hm & Hin).
  rewrite Forall_forall in Hall. specialize (Hall m Hin).
  rewrite <- Hm in Hall. revert Hall. apply (bool_decide_unpack _). reflexivity.
Qed.

Lemma teacher_event_names_witness :
  "leave-room"
  ∉ map fst (emitted (hook (TeacherControls.run (Classroom.teacher Classroom.classOfTwo)
                              [Do StartSession; Do EndSession]))).
Proof.
  exact (proj2 (teacher_event_names (Classroom.teacher Classroom.classOfTwo)
                  [Do StartSession; Do EndSession] eq_refl)).
Defined.

Lemma sumOfNumbers_cons (v : JsValue) (vs : list JsValue) (total : nat) :
  sumOfNumbers (v :: vs) = Some total ->
  exists n m, v = JsNumber n /\ sumOfNumbers vs = Some m /\ total = (n + m)%nat.
Proof.
  destruct v as [n | name | name ones]; simpl; try discriminate.
  destruct (sumOfNumbers vs) as [m|]; [|discriminate].
  intros [= <-]. exists n, m. repeat split.
Qed.

Lemma sum_votesShown_countResponse (l : list string) (p : Poll) (o : string) (total : nat) :
  sumOfNumbers (map (votesShown p) l) = Some total ->
  sumOfNumbers (map (votesShown (countResponse o p)) l)
  = Some (total + Classroom.occurrences o l)%nat.
Proof.
  revert total. induction l as [|x l IH]; intros total Hsum.
  - simpl in *. injection Hsum as <-. reflexivity.
  - cbn [map] in Hsum |- *.
    apply sumOfNumbers_cons in Hsum as (n & m & Hn & Hm & ->).
    simpl. rewrite (votesShown_countResponse p o x n Hn), (IH m Hm).
    unfold Classroom.occurrences. simpl. rewrite (String.eqb_sym o x).
    destruct (String.eqb x o); simpl; f_equal; lia.
Qed.

Lemma shownTotal_countResponse (p : Poll) (o : string) (total : nat) :
  shownTotal p = Some total ->
  shownTotal (countResponse o p)
  = Some (total + Classroom.occurrences o (options p))%nat.
Proof. unfold shownTotal. simpl. apply sum_votesShown_countResponse. Qed.

Lemma counted_keeps_form (opts : list string) (p : Poll) :
  question (Classroom.counted p opts) = question p
  /\ options (Classroom.counted p opts) = options p.
Proof.
  revert p. induction opts as [|o opts IH]; intros p; [split; reflexivity|].
  rewrite counted_cons. destruct (IH (countResponse o p)) as [-> ->].
  split; reflexivity.
Qed.

Lemma shownTotal_counted (opts : list string) (p : Poll) (total : nat) :
  shownTotal p = Some total ->
  shownTotal (Classroom.counted p opts)
  = Some (total
          + list_sum (map (fun o => Classroom.occurrences o (options p)) opts))%nat.
Proof.
  revert p total. induction opts as [|o opts IH]; intros p total Hsum.
  - simpl. rewrite Nat.add_0_r. exact Hsum.
  - rewrite counted_cons.
    rewrite (IH _ _ (shownTotal_countResponse p o total Hsum)).
    change (list_sum (map (fun o0 => Classroom.occurrences o0 (options p)) (o :: opts)))
      with (Classroom.occurrences o (options p)
            + list_sum (map (fun o0 => Classroom.occurrences o0 (options p)) opts))%nat.
    change (options (countResponse o p)) with (options p). f_equal. lia.
Qed.

(** A new poll shows a number, 0, for every option when no option names a
    member of [Object.prototype]. *)
Lemma shownTotal_new (p : Poll) :
  responses p = ∅ ->
  Forall (fun opt => Js.inheritedKey opt = false) (options p) ->
  shownTotal p = Some 0%nat.
Proof.
  intros Hnew Hord. unfold shownTotal.
  induction Hord as [|opt l Hopt _ IH]; [reflexivity|].
  cbn [map]. rewrite (votesShown_new p opt Hnew), Hopt. simpl.
  rewrite IH. reflexivity.
Qed.

Lemma occurrences_NoDup (o : string) (l : list string) :
  NoDup l ->
  Classroom.occurrences o l = (if bool_decide (o ∈ l) then 1 else 0)%nat.
Proof.
  induction 1 as [|x l Hx Hnd IH]; [reflexivity|].
  unfold Classroom.occurrences in *. simpl.
  destruct (String.eqb_spec o x) as [->|Hne].
  - simpl. rewrite IH. rewrite (bool_decide_eq_false_2 _ Hx).
    rewrite bool_decide_eq_true_2 by (left). reflexivity.
  - rewrite IH. destruct (bool_decide (o ∈ l)) eqn:Hin.
    + apply bool_decide_eq_true in Hin.
      rewrite bool_decide_eq_true_2 by (right; exact Hin). reflexivity.
    + apply bool_decide_eq_false in Hin.
      rewrite bool_decide_eq_false_2; [reflexivity|].
      intros Hc. apply elem_of_cons in Hc as [Hc|Hc]; contradiction.
Qed.

Lemma run_responses (opts : list string) (t : State) (p : Poll) :
  currentPoll t = Some p ->
  TeacherInterface.run t (map PollResponse opts)
  = setCurrentPoll (Some (Classroom.counted p opts)) t.
Proof.
  revert t p. induction opts as [|o opts IH]; intros t p Hp.
  - simpl. destruct t; simpl in *. subst. reflexivity.
  - change (TeacherInterface.run (on_poll_response o t) (map PollResponse opts)
            = setCurrentPoll (Some (Classroom.counted (countResponse o p) opts)) t).
    rewrite (on_poll_response_open t p o Hp).
    rewrite (IH _ (countResponse o p)); reflexivity.
Qed.

(** X7. Responses never change the question or the options of the open
    poll. When the poll card shows a number for every option (as it does
    for a new poll none of whose options names a member of
    [Object.prototype]), it keeps doing so, and the numbers add up as
    follows: each received response raises the total by the number of
    times its option occurs among the options of the poll. So with distinct
    options the total grows by one for a response that names an option of
    the poll and not at all for one that does not (it is stored but never
    shown). *)
Theorem poll_card_total (t : State) (p : Poll) (opts : list string) :
  currentPoll t = Some p ->
  (responses p = ∅ ->
   Forall (fun opt => Js.inheritedKey opt = false) (options p) ->
   shownTotal p = Some 0%nat)
  /\ exists q,
      currentPoll (TeacherInterface.run t (map PollResponse opts)) = Some q
      /\ question q = question p
      /\ options q = options p
      /\ (forall total,
            shownTotal p = Some total ->
            shownTotal q
            = Some (total
                    + list_sum (map (fun o => Classroom.occurrences o (options p)) opts))%nat
            /\ (NoDup (options p) ->
                shownTotal q
                = Some (total + List.length (List.filter (listed p) opts))%nat)).
Proof.
  intros Hp. split; [apply shownTotal_new|].
  exists (Classroom.counted p opts).
  rewrite (run_responses opts t p Hp).
  destruct (counted_keeps_form opts p) as [Hq Ho].
  split; [reflexivity|]. split; [exact Hq|]. split; [exact Ho|].
  intros total Hsum. split; [apply shownTotal_counted, Hsum|].
  intros Hnd. rewrite (shownTotal_counted opts p total Hsum). do 2 f_equal.
  clear Hp Hq Ho Hsum. induction opts as [|o opts IH]; [reflexivity|].
  change (Classroom.occurrences o (options p)
          + list_sum (map (fun o0 => Classroom.occurrences o0 (options p)) opts)
          = List.length (List.filter (listed p) (o :: opts)))%nat.
  rewrite IH, (occurrences_NoDup o _ Hnd). simpl.
  unfold listed at 2. destruct (bool_decide (o ∈ options p)); reflexivity.
Qed.

Lemma poll_card_total_witness :
  let p := {| question := "Q1"; options := ["A"; "B"]; responses := ∅ |} in
  let t := setCurrentPoll (Some p) initial in
  exists q,
    currentPoll (TeacherInterface.run t (map PollResponse ["A"; "C"; "B"; "A"])) = Some q
    /\ shownTotal q = Some 3%nat.
Proof.
  intros p t.
  destruct (poll_card_total t p ["A"; "C"; "B"; "A"] eq_refl)
    as (Hnew & q & Hq & _ & _ & Hsum).
  exists q. split; [exact Hq|].
  assert (Hzero : shownTotal p = Some 0%nat).
  { apply Hnew; [reflexivity|]. repeat constructor. }
  destruct (Hsum 0%nat Hzero) as [_ Hdistinct].
  rewrite Hdistinct; [reflexivity|].
  apply (bool_decide_unpack _). reflexivity.
Defined.

End TeacherWire.

(** ** The student page over sequences of steps *)

Section StudentRuns.
Import UseSocket HookCalls StudentInterface StudentControls.

Local Ltac name_listed := apply (bool_decide_unpack _); reflexivity.

Lemma student_run_cons (s : State) (x : Step) (xs : list Step) :
  StudentInterface.run s (x :: xs) = StudentInterface.run (step s x) xs.
Proof. reflexivity. Qed.

Lemma student_handle_hook (ev : Event) (s : State) : hook (handle ev s) = hook s.
Proof. destruct ev; reflexivity. Qed.

Lemma student_step_emitsOnly (s : State) (x : Step) :
  emitsOnly eventNames (hook s) (hook (step s x)).
Proof.
  destruct x as [ev | ev | a].
  - apply emitsOnly_handle.
  - apply emitsOnly_same. simpl. rewrite student_handle_hook. reflexivity.
  - destruct a as [n | n | v | n now date | v |]; simpl; try apply emitsOnly_refl.
    + eapply emitsOnly_trans;
        [apply emitsOnly_joinRoom | apply emitsOnly_sendMessage]; name_listed.
    + apply emitsOnly_sendMessage. name_listed.
    + unfold sendChatMessage. destruct (Js.truthy (Js.trim (newMessage s)));
        [|apply emitsOnly_refl].
      apply emitsOnly_sendMessage. name_listed.
    + unfold submitPollResponse.
      destruct (Js.truthy (selectedPollOption s) && negb (hasVoted s));
        [|apply emitsOnly_refl].
      apply emitsOnly_sendMessage. name_listed.
Qed.

Lemma student_run_emitsOnly (xs : list Step) (s : State) :
  emitsOnly eventNames (hook s) (hook (StudentInterface.run s xs)).
Proof.
  revert s. induction xs as [|x xs IH]; intros s; [apply emitsOnly_refl|].
  rewrite student_run_cons.
  eapply emitsOnly_trans; [apply student_step_emitsOnly | apply IH].
Qed.

(** X8. Whatever happens to the student page, every message it has the
    socket send goes under one of five event names (join-room,
    student-joined, student-left, chat-message, poll-response). In
    particular it never sends ["leave-room"]: leaving the class tells the
    others with ["student-left"] but does not take the socket out of the
    room. *)
Theorem student_event_names (s : State) (xs : list Step) :
  emitted (hook s) = [] ->
  Forall (fun m => m.1 ∈ eventNames) (emitted (hook (StudentInterface.run s xs)))
  /\ "leave-room" ∉ map fst (emitted (hook (StudentInterface.run s xs))).
Proof.
  intros Hnone.
  assert (Hall : Forall (fun m => m.1 ∈ eventNames)
                   (emitted (hook (StudentInterface.run s xs)))).
  { eapply emitsOnly_names; [apply student_run_emitsOnly|].
    rewrite Hnone. constructor. }
  split; [exact Hall|].
  intros Hin. apply list_elem_of_fmap in Hin as (m & Hm & Hin).
  rewrite Forall_forall in Hall. specialize (Hall m Hin).
  rewrite <- Hm in Hall. revert Hall. apply (bool_decide_unpack _). reflexivity.
Qed.

Lemma student_event_names_witness :
  let xs := [Transport EvConnect; Receive SessionStarted;
             Do (JoinClass "Student_7"); Do (LeaveClass "Student_7")] in
  map fst (emitted (hook (StudentInterface.run mounted xs)))
    = ["join-room"; "student-joined"; "student-left"]
  /\ "leave-room" ∉ map fst (emitted (hook (StudentInterface.run mounted xs))).
Proof.
  intros xs. split; [reflexivity|].
  exact (proj2 (student_event_names mounted xs eq_refl)).
Defined.

Lemma step_selection_fits (s : State) (x : Step) :
  selectionFits s ->
  match x with Do a => offered a s | _ => true end = true ->
  selectionFits (step s x).
Proof.
  unfold selectionFits. intros Hinv Hen. destruct x as [ev | ev | a].
  - exact Hinv.
  - destruct ev as [| | m | p0 | | b | |]; simpl; try exact Hinv.
    + intros q _. left. reflexivity.
    + discriminate.
  - destruct a as [n | n | v | n now date | v |]; simpl in *; try exact Hinv.
    + unfold sendChatMessage.
      destruct (Js.truthy (Js.trim (newMessage s))); exact Hinv.
    + unfold offered in Hen. apply andb_true_iff in Hen as [_ Hv].
      intros q Hq. rewrite Hq in Hv. right.
      apply bool_decide_eq_true in Hv. exact Hv.
    + unfold submitPollResponse.
      destruct (Js.truthy (selectedPollOption s) && negb (hasVoted s)); exact Hinv.
Qed.

Lemma run_selection_fits (xs : list Step) (s : State) :
  selectionFits s -> permitted s xs = true ->
  selectionFits (StudentInterface.run s xs).
Proof.
  revert s. induction xs as [|x xs IH]; intros s Hinv Hal; [exact Hinv|].
  simpl in Hal. apply andb_true_iff in Hal as [Hen Hal].
  rewrite student_run_cons. apply IH; [|exact Hal].
  apply step_selection_fits; assumption.
Qed.

Lemma student_socket_stays (xs : list Step) (s : State) :
  is_Some (socket (hook s)) -> is_Some (socket (hook (StudentInterface.run s xs))).
Proof.
  revert s. induction xs as [|x xs IH]; intros s Hs; [exact Hs|].
  rewrite student_run_cons. apply IH.
  destruct x as [ev | ev | a].
  - apply (socket_stays (hook s) (HookCalls.Event ev) Hs).
  - simpl. rewrite student_handle_hook. exact Hs.
  - destruct a as [n | n | v | n now date | v |]; simpl; try exact Hs.
    + apply (socket_stays _ (HookCalls.Send _ _)),
        (socket_stays _ (HookCalls.JoinRoom _)), Hs.
    + apply (socket_stays _ (HookCalls.Send _ _)), Hs.
    + unfold sendChatMessage. destruct (Js.truthy (Js.trim (newMessage s)));
        [|exact Hs].
      simpl. apply (socket_stays _ (HookCalls.Send _ _)), Hs.
    + unfold submitPollResponse.
      destruct (Js.truthy (selectedPollOption s) && negb (hasVoted s));
        [|exact Hs].
      simpl. apply (socket_stays _ (HookCalls.Send _ _)), Hs.
Qed.

(** X9. Through the controls of the student page a vote always names an
    option of the poll on the page. In a run from the mounted page in
    which options are selected through the radio buttons of the current
    poll and only enabled controls are used, whenever the submit button is
    enabled the selected option is one of the options of the current poll,
    and [submitPollResponse] sends exactly that option when the hook is
    connected (and nothing when it is not). A selection left over from an
    earlier poll cannot be submitted: [poll-created] clears it. *)
Theorem submitted_vote_is_an_option (xs : list Step) :
  permitted mounted xs = true ->
  let s := StudentInterface.run mounted xs in
  enabled SubmitPollResponse s = true ->
  exists p, currentPoll s = Some p
    /\ selectedPollOption s ∈ options p
    /\ is_Some (socket (hook s))
    /\ votesSent (submitPollResponse s)
       = votesSent s ++ (if isConnected (hook s) then [selectedPollOption s] else []).
Proof.
  intros Hal s Hen. simpl in Hen.
  apply andb_true_iff in Hen as [Hen Hsel].
  apply andb_true_iff in Hen as [Hpoll Hnv].
  apply bool_decide_eq_true in Hpoll as [p Hp].
  apply negb_true_iff in Hnv.
  assert (Hsock : is_Some (socket (hook s)))
    by (apply student_socket_stays; eexists; reflexivity).
  exists p. split; [exact Hp|]. split; [|split; [exact Hsock|]].
  - assert (Hinit : selectionFits mounted) by (intros q Hq; discriminate Hq).
    destruct (run_selection_fits xs mounted Hinit Hal p Hp) as [Hempty | Hin];
      [|exact Hin].
    fold s in Hempty. rewrite Hempty in Hsel. discriminate.
  - destruct (submitPollResponse_fires s Hsel Hnv) as [_ Hsent].
    rewrite Hsent. unfold connected. destruct Hsock as [sock ->]. reflexivity.
Qed.

Lemma submitted_vote_is_an_option_witness :
  let p := {| question := "Q1"; options := ["A"; "B"]; responses := ∅ |} in
  let xs := [Transport EvConnect; Receive (PollCreated p);
             Do (SelectPollOption "B")] in
  exists q, currentPoll (StudentInterface.run mounted xs) = Some q
    /\ selectedPollOption (StudentInterface.run mounted xs) ∈ options q
    /\ votesSent (submitPollResponse (StudentInterface.run mounted xs)) = ["B"].
Proof.
  intros p xs.
  destruct (submitted_vote_is_an_option xs eq_refl eq_refl)
    as (q & Hq & Hin & _ & Hsent).
  exists q. split; [exact Hq|]. split; [exact Hin | exact Hsent].
Defined.

End StudentRuns.

(** ** Joining, leaving and the chat history *)

Section Presence.
Import UseSocket HookCalls StudentInterface StudentControls.

Lemma sent_grows (e : string) (s s' : State) (out : list (string * Payload)) :
  emitted (hook s') = emitted (hook s) ++ out ->
  sent e s' = (sent e s + List.length (List.filter (fun m => String.eqb (fst m) e) out))%nat.
Proof.
  intros H. unfold sent. rewrite H, List.filter_app, length_app. reflexivity.
Qed.

Lemma sent_same (e : string) (s s' : State) :
  emitted (hook s') = emitted (hook s) -> sent e s' = sent e s.
Proof. intros H. unfold sent. rewrite H. reflexivity. Qed.

Lemma mounted_connected (h : Hook) :
  is_Some (socket h) -> isConnected h = true -> connected h = true.
Proof. intros [s Hs] Hc. unfold connected. rewrite Hs. exact Hc. Qed.

Lemma step_balanced (s : State) (x : Step) :
  balanced s ->
  match x with Do a => enabled a s | _ => true end = true ->
  balanced (step s x).
Proof.
  intros (Hsock & Hle & Hlt) Hen. destruct x as [ev | ev | a].
  - split; [apply (socket_stays (hook s) (HookCalls.Event ev) Hsock)|].
    simpl. rewrite !(sent_same _ s (withHook (UseSocket.handle ev) s)) by apply emitted_handle.
    split; assumption.
  - assert (Hh : hook (handle ev s) = hook s) by (destruct ev; reflexivity).
    split; [simpl; rewrite Hh; exact Hsock|].
    simpl. rewrite !(sent_same _ s (handle ev s)) by (rewrite Hh; reflexivity).
    split; [exact Hle|].
    destruct ev; simpl; try exact Hlt. discriminate.
  - destruct a as [n | n | v | n now date | v |]; simpl in Hen |- *.
    + apply andb_true_iff in Hen as [Hen _].
      apply andb_true_iff in Hen as [_ Hconn].
      pose proof (mounted_connected (hook s) Hsock Hconn) as Hc.
      assert (Hout : emitted (hook (joinClass n s))
                     = emitted (hook s)
                       ++ [("join-room", PRoomId roomId);
                           ("student-joined", PStudent n roomId)]).
      { simpl. rewrite emitted_sendMessage, emitted_joinRoom, connected_joinRoom, Hc.
        rewrite <- app_assoc. reflexivity. }
      split.
      { simpl. apply (socket_stays _ (HookCalls.Send _ _)), (socket_stays _ (HookCalls.JoinRoom _)), Hsock. }
      rewrite !(sent_grows _ s (joinClass n s) _ Hout). simpl.
      split; [lia | intros _; lia].
    + assert (Hout : emitted (hook (leaveClass n s))
                     = emitted (hook s)
                       ++ (if connected (hook s)
                           then [("student-left", PStudent n roomId)] else []))
        by (simpl; apply emitted_sendMessage).
      split; [simpl; apply (socket_stays _ (HookCalls.Send _ _)), Hsock|].
      rewrite !(sent_grows _ s (leaveClass n s) _ Hout).
      specialize (Hlt Hen).
      split; [|discriminate].
      destruct (connected (hook s)); simpl; lia.
    + split; [exact Hsock | split; assumption].
    + unfold sendChatMessage.
      destruct (Js.truthy (Js.trim (newMessage s))); [|split; [exact Hsock | split; assumption]].
      set (m := {| msg_id := pretty now; msg_text := newMessage s;
                   msg_sender := n; msg_timestamp := date |}).
      set (s' := setNewMessage _ _).
      assert (Hout : emitted (hook s')
                     = emitted (hook s)
                       ++ (if connected (hook s) then [("chat-message", PChat m)] else []))
        by (simpl; apply emitted_sendMessage).
      split; [simpl; apply (socket_stays _ (HookCalls.Send _ _)), Hsock|].
      rewrite !(sent_grows _ s s' _ Hout).
      destruct (connected (hook s)); simpl; rewrite ?Nat.add_0_r;
        split; assumption.
    + split; [exact Hsock | split; assumption].
    + unfold submitPollResponse.
      destruct (Js.truthy (selectedPollOption s) && negb (hasVoted s));
        [|split; [exact Hsock | split; assumption]].
      set (s' := setHasVoted _ _).
      assert (Hout : emitted (hook s')
                     = emitted (hook s)
                       ++ (if connected (hook s)
                           then [("poll-response", PResponse (selectedPollOption s))]
                           else []))
        by (simpl; apply emitted_sendMessage).
      split; [simpl; apply (socket_stays _ (HookCalls.Send _ _)), Hsock|].
      rewrite !(sent_grows _ s s' _ Hout).
      destruct (connected (hook s)); simpl; rewrite ?Nat.add_0_r;
        split; assumption.
Qed.

Lemma run_balanced (xs : list Step) (s : State) :
  balanced s -> allowed s xs = true -> balanced (StudentInterface.run s xs).
Proof.
  revert s. induction xs as [|x xs IH]; intros s Hb Hal; [exact Hb|].
  simpl in Hal. apply andb_true_iff in Hal as [Hen Hal].
  rewrite student_run_cons. apply IH; [|exact Hal].
  apply step_balanced; assumption.
Qed.

(** X10. Through the controls of a mounted student page the socket is
    never asked to announce more leaves than joins: after every run that
    uses enabled controls only, the number of ["student-left"] messages
    sent is at most the number of ["student-joined"] messages sent, and
    strictly smaller while the student is in class. (The two need not be
    equal when the student is out of class: the end of a session takes the
    student out without a message, and a leave while disconnected is not
    sent.) *)
Theorem leaves_never_exceed_joins (xs : list Step) :
  allowed mounted xs = true ->
  let s := StudentInterface.run mounted xs in
  (sent "student-left" s <= sent "student-joined" s)%nat
  /\ (isInClass s = true -> (sent "student-left" s < sent "student-joined" s)%nat).
Proof.
  intros Hal s.
  assert (Hb : balanced mounted).
  { split; [eexists; reflexivity|]. split; [reflexivity | discriminate]. }
  destruct (run_balanced xs mounted Hb Hal) as (_ & Hle & Hlt).
  split; assumption.
Qed.

Lemma leaves_never_exceed_joins_witness :
  let xs := [Transport EvConnect; Receive SessionStarted; Do (JoinClass "Student_7");
             Receive SessionEnded; Receive SessionStarted; Do (JoinClass "Student_7")] in
  (sent "student-left" (StudentInterface.run mounted xs)
   < sent "student-joined" (StudentInterface.run mounted xs))%nat.
Proof.
  intros xs.
  exact (proj2 (leaves_never_exceed_joins xs eq_refl) eq_refl).
Defined.

Lemma student_step_messages (s : State) (x : Step) :
  messages s `prefix_of` messages (step s x).
Proof.
  destruct x as [ev | ev | a].
  - reflexivity.
  - destruct ev; simpl; try reflexivity. apply prefix_app_r. reflexivity.
  - destruct a as [n | n | v | n now date | v |]; simpl; try reflexivity.
    + unfold sendChatMessage. destruct (Js.truthy (Js.trim (newMessage s)));
        [|reflexivity].
      simpl. apply prefix_app_r. reflexivity.
    + unfold submitPollResponse.
      destruct (Js.truthy (selectedPollOption s) && negb (hasVoted s)); reflexivity.
Qed.

Lemma teacher_step_messages (t : TeacherInterface.State) (x : TeacherControls.Step) :
  TeacherInterface.messages t
  `prefix_of` TeacherInterface.messages (TeacherControls.step t x).
Proof.
  destruct x as [ev | ev | a].
  - reflexivity.
  - destruct ev as [c | c | m | opt]; simpl; try reflexivity.
    + apply prefix_app_r. reflexivity.
    + unfold TeacherInterface.on_poll_response.
      destruct (TeacherInterface.currentPoll t); reflexivity.
  - destruct a; simpl; try reflexivity.
    + unfold TeacherInterface.sendChatMessage.
      destruct (Js.truthy (Js.trim (TeacherInterface.newMessage t))); [|reflexivity].
      simpl. apply prefix_app_r. reflexivity.
    + unfold TeacherInterface.createPoll.
      destruct (Js.truthy (TeacherInterface.pollQuestion t)
                && (2 <=? List.length
                            (List.filter TeacherInterface.nonBlank
                               (TeacherInterface.pollOptions t)))%nat);
        reflexivity.
Qed.

(** X11. The chat history of a page only grows: after any sequence of
    socket events, received events and actions, the messages shown before
    are still there, in the same order, at the front of the list. Nothing
    clears the chat, neither the end of a session, nor leaving the class,
    nor a disconnect. This holds for the teacher page and for the student
    page. *)
Theorem chat_history_only_grows :
  (forall (t : TeacherInterface.State) (xs : list TeacherControls.Step),
      TeacherInterface.messages t
      `prefix_of` TeacherInterface.messages (TeacherControls.run t xs))
  /\ (forall (s : State) (xs : list Step),
      messages s `prefix_of` messages (StudentInterface.run s xs)).
Proof.
  split.
  - intros t xs. revert t. induction xs as [|x xs IH]; intros t; [reflexivity|].
    rewrite teacher_run_cons.
    etransitivity; [apply teacher_step_messages | apply IH].
  - intros s xs. revert s. induction xs as [|x xs IH]; intros s; [reflexivity|].
    rewrite student_run_cons.
    etransitivity; [apply student_step_messages | apply IH].
Qed.

End Presence.

(** ** The quiz *)

Section Quiz.
Import InteractiveQuiz.

Lemma spread_plain (l : list Slot) :
  Forall (fun slot => isPlain slot = true) l -> spread l = l.
Proof.
  induction 1 as [|x l Hx _ IH]; [reflexivity|].
  unfold spread in *. simpl. rewrite IH.
  destruct x as [|v]; [discriminate Hx | reflexivity].
Qed.

Lemma write_in_range (i : nat) (v : Value) (l : list Slot) :
  (i < List.length l)%nat -> write i v l = <[i := Filled v]> l.
Proof. intros Hi. unfold write. rewrite decide_True by exact Hi. reflexivity. Qed.

Lemma read_write_same (i : nat) (v : Value) (l : list Slot) :
  (i < List.length l)%nat -> read (write i v l) i = v.
Proof.
  intros Hi. rewrite write_in_range by exact Hi. unfold read.
  rewrite list_lookup_insert_eq by exact Hi. reflexivity.
Qed.

Lemma read_plain (l : list Slot) (i : nat) :
  Forall (fun slot => isPlain slot = true) l ->
  (i < List.length l)%nat ->
  isPlain (Filled (read l i)) = true.
Proof.
  intros Hall Hi. unfold read.
  destruct (lookup_lt_is_Some_2 l i Hi) as [slot Hslot]. rewrite Hslot.
  rewrite Forall_lookup in Hall. specialize (Hall i slot Hslot).
  destruct slot as [|v]; [discriminate Hall | exact Hall].
Qed.

Lemma plain_not_null (v : Value) :
  isPlain (Filled v) = true -> isNull v = false -> exists n, v = Num n.
Proof. destruct v as [| |n]; try discriminate. intros _ _. exists n. reflexivity. Qed.

Lemma correctOnes_cons (q : QuizQuestion) (qs : list QuizQuestion)
    (slot : Slot) (l : list Slot) :
  List.length (correctOnes (q :: qs) (slot :: l))
  = ((match slot with
      | Filled answer => if strictEq answer (correctAnswer q) then 1 else 0
      | Hole => 0
      end) + List.length (correctOnes qs l))%nat.
Proof.
  unfold correctOnes. simpl.
  destruct slot as [|answer]; [reflexivity|].
  destruct (strictEq answer (correctAnswer q)); reflexivity.
Qed.

Lemma correctOnes_bound (qs : list QuizQuestion) (l : list Slot) :
  (List.length (correctOnes qs l) <= List.length qs)%nat.
Proof.
  revert l. induction qs as [|q qs IH]; intros l; [simpl; lia|].
  destruct l as [|slot l]; [simpl; lia|].
  rewrite correctOnes_cons. specialize (IH l). simpl.
  destruct slot as [|answer]; [lia|].
  destruct (strictEq answer (correctAnswer q)); lia.
Qed.

(** The loop of [completeQuiz] on an array without holes that is no
    longer than the questions left: it does not throw, and it adds the
    number of correct answers to the count. *)
Lemma countCorrect_plain (qs : list QuizQuestion) (cells : list Slot) :
  forall index correctCount,
    Forall (fun slot => isPlain slot = true) cells ->
    (index + List.length cells <= List.length qs)%nat ->
    countCorrect qs index cells correctCount
    = Some (correctCount + List.length (correctOnes (drop index qs) cells))%nat.
Proof.
  induction cells as [|slot cells IH]; intros index c Hall Hlen.
  - simpl. unfold correctOnes. rewrite zip_with_nil_r. simpl. f_equal. lia.
  - apply Forall_cons in Hall as [Hslot Hall]. simpl in Hlen.
    destruct (lookup_lt_is_Some_2 qs index) as [q Hq]; [lia|].
    rewrite (drop_S qs q index Hq), correctOnes_cons.
    destruct slot as [|answer]; [discriminate Hslot|].
    simpl. rewrite Hq. rewrite IH by (assumption || lia).
    destruct (strictEq answer (correctAnswer q)); f_equal; lia.
Qed.

Lemma tidy_initial (props : Props) :
  questions props <> [] -> tidy props (initial props).
Proof.
  intros Hne. unfold tidy, initial, blank. simpl.
  rewrite length_replicate. split; [reflexivity|].
  split; [destruct (questions props); [contradiction | simpl; lia]|].
  split; [|reflexivity].
  apply Forall_replicate. reflexivity.
Qed.

Lemma tidy_restart (props : Props) (s : State) :
  tidy props s -> tidy props (restartQuiz props s).
Proof.
  intros (_ & Hidx & _). unfold tidy, restartQuiz, blank. simpl.
  rewrite length_replicate. split; [reflexivity|].
  split; [lia|]. split; [|reflexivity].
  apply Forall_replicate. reflexivity.
Qed.

Lemma tidy_previous (props : Props) (s : State) :
  tidy props s -> tidy props (handlePrevious s).
Proof.
  intros (Hlen & Hidx & Hall & Hsel). unfold handlePrevious.
  destruct (0 <? currentQuestionIndex s)%nat; [|repeat split; assumption].
  unfold tidy. simpl. split; [exact Hlen|]. split; [lia|].
  split; [exact Hall|]. apply read_plain; [exact Hall | lia].
Qed.

(** What [handleNext] does in a tidy state with an answer selected. *)
Lemma handleNext_tidy (props : Props) (s : State) (n : Z) :
  tidy props s ->
  selectedAnswer s = Num n ->
  let newAnswers := <[currentQuestionIndex s := Filled (Num n)]> (answers s) in
  (S (currentQuestionIndex s) < List.length (questions props))%nat
  /\ handleNext props s
     = Done {| currentQuestionIndex := currentQuestionIndex s + 1;
               selectedAnswer := read (answers s) (currentQuestionIndex s + 1);
               answers := newAnswers;
               showResult := false;
               quizCompleted := quizCompleted s;
               score := score s;
               reported := reported s |}
  \/ S (currentQuestionIndex s) = List.length (questions props)
     /\ handleNext props s
        = Done {| currentQuestionIndex := currentQuestionIndex s;
                  selectedAnswer := selectedAnswer s;
                  answers := newAnswers;
                  showResult := showResult s;
                  quizCompleted := true;
                  score := List.length (correctOnes (questions props) newAnswers);
                  reported := if onComplete props
                              then reported s
                                   ++ [(List.length (correctOnes (questions props) newAnswers),
                                        List.length (questions props))]
                              else reported s |}.
Proof.
  intros (Hlen & Hidx & Hall & Hsel) Hn newAnswers.
  assert (Hnew : write (currentQuestionIndex s) (selectedAnswer s) (spread (answers s))
                 = newAnswers).
  { rewrite (spread_plain _ Hall), write_in_range by lia. rewrite Hn. reflexivity. }
  unfold handleNext. rewrite Hnew, Hn. simpl.
  destruct (Z.ltb_spec (Z.of_nat (currentQuestionIndex s))
              (Z.of_nat (List.length (questions props)) - 1)) as [Hlt | Hge].
  - left. split; [lia | reflexivity].
  - right. split; [lia|]. unfold completeQuiz. simpl.
    rewrite (countCorrect_plain (questions props) newAnswers 0 0).
    + rewrite drop_0. reflexivity.
    + subst newAnswers. apply Forall_insert; [exact Hall | reflexivity].
    + subst newAnswers. rewrite length_insert. lia.
Qed.

Lemma tidy_act (props : Props) (a : Action) (s : State) :
  tidy props s -> exists s', act props a s = Done s' /\ tidy props s'.
Proof.
  intros Ht. destruct a as [z | | | |]; simpl.
  - eexists. split; [reflexivity|]. destruct Ht as (Hlen & Hidx & Hall & _).
    repeat split; assumption.
  - destruct (isNull (selectedAnswer s)) eqn:Hnull.
    { exists s. split; [|exact Ht]. unfold handleNext. rewrite Hnull. reflexivity. }
    destruct Ht as (Hlen & Hidx & Hall & Hsel).
    destruct (plain_not_null _ Hsel Hnull) as [n Hn].
    assert (Hnew : Forall (fun slot => isPlain slot = true)
                     (<[currentQuestionIndex s := Filled (Num n)]> (answers s)))
      by (apply Forall_insert; [exact Hall | reflexivity]).
    destruct (handleNext_tidy props s n) as [[Hlt ->] | [Heq ->]];
      [repeat split; assumption | exact Hn | |];
      eexists; (split; [reflexivity|]); unfold tidy; simpl;
      rewrite length_insert.
    + split; [exact Hlen|]. split; [lia|]. split; [exact Hnew|].
      apply read_plain; [exact Hall | lia].
    + split; [exact Hlen|]. split; [exact Hidx|]. split; [exact Hnew | exact Hsel].
  - eexists. split; [reflexivity|]. apply tidy_previous, Ht.
  - eexists. split; [reflexivity|]. destruct Ht as (Hlen & Hidx & Hall & Hsel).
    repeat split; assumption.
  - eexists. split; [reflexivity|]. apply tidy_restart, Ht.
Qed.

Lemma tidy_run (props : Props) (acts : list Action) (s : State) :
  tidy props s -> exists s', run props s acts = Done s' /\ tidy props s'.
Proof.
  revert s. induction acts as [|a acts IH]; intros s Ht.
  - exists s. split; [reflexivity | exact Ht].
  - destruct (tidy_act props a s Ht) as (s1 & Hs1 & Ht1).
    simpl. rewrite Hs1. apply IH, Ht1.
Qed.

(** X12. With at least one question, the quiz never reads or writes
    outside its arrays: whatever handlers are called, in whatever order,
    from the initial state, no call throws, the answers array keeps exactly
    one slot per question, each holding [null] or a number, and the index
    of the current question stays below the number of questions. *)
Theorem quiz_stays_in_range (props : Props) (acts : list Action) :
  questions props <> [] ->
  exists s,
    run props (initial props) acts = Done s
    /\ List.length (answers s) = List.length (questions props)
    /\ (currentQuestionIndex s < List.length (questions props))%nat
    /\ Forall (fun slot => isPlain slot = true) (answers s)
    /\ is_Some (questions props !! currentQuestionIndex s).
Proof.
  intros Hne.
  destruct (tidy_run props acts (initial props) (tidy_initial props Hne))
    as (s & Hrun & Hlen & Hidx & Hall & _).
  exists s. repeat split; try assumption.
  apply lookup_lt_is_Some_2. exact Hidx.
Qed.

Lemma quiz_stays_in_range_witness :
  exists s,
    run sampleQuiz (initial sampleQuiz)
      [Next; Previous; AnswerSelect 7; Next; Next; Next; Previous; Previous; Restart;
       AnswerSelect 1; Next] = Done s
    /\ List.length (answers s) = 2%nat.
Proof.
  destruct (quiz_stays_in_range sampleQuiz
              [Next; Previous; AnswerSelect 7; Next; Next; Next; Previous; Previous;
               Restart; AnswerSelect 1; Next])
    as (s & Hrun & Hlen & _); [discriminate|].
  exists s. split; [exact Hrun | exact Hlen].
Defined.

Lemma enabled_cases (props : Props) (a : Action) (s : State) :
  enabled props a s = true ->
  (quizCompleted s = true /\ a = Restart)
  \/ (quizCompleted s = false
      /\ match a with
         | AnswerSelect answerIndex => showResult s = false
         | SubmitAnswer => showResult s = false /\ isNull (selectedAnswer s) = false
         | Next => showResult s = true
         | Previous => True
         | Restart => False
         end).
Proof.
  unfold enabled. destruct (questions props); [discriminate|].
  destruct (quizCompleted s).
  - destruct a; try discriminate. intros _. left. split; reflexivity.
  - intros H. right. split; [reflexivity|]. destruct a; try discriminate.
    + apply andb_true_iff in H as [H _]. apply negb_true_iff in H. exact H.
    + exact H.
    + exact I.
    + apply andb_true_iff in H as [H1 H2].
      apply negb_true_iff in H1. apply negb_true_iff in H2. split; assumption.
Qed.

Lemma quizScore_snoc (l : list (nat * nat)) (x : nat * nat) (s : State) :
  reported s = l ++ [x] -> quizScore s = Some x.
Proof.
  intros H. unfold quizScore. rewrite H, map_app. simpl. apply List.last_last.
Qed.

Lemma guided_initial (props : Props) :
  questions props <> [] -> guided props (initial props).
Proof.
  intros Hne. split; [apply tidy_initial, Hne|].
  split; [discriminate|]. split; [constructor | discriminate].
Qed.

Lemma guided_next (props : Props) (s : State) :
  guided props s -> quizCompleted s = false -> showResult s = true ->
  exists s', handleNext props s = Done s'
    /\ guided props s'
    /\ read (answers s') (currentQuestionIndex s) = selectedAnswer s
    /\ ((currentQuestionIndex s' = S (currentQuestionIndex s)
         /\ quizCompleted s' = false)
        \/ (S (currentQuestionIndex s) = List.length (questions props)
            /\ quizCompleted s' = true)).
Proof.
  intros (Ht & Hshow & Hbefore & _) Hopen Hres.
  pose proof Ht as (Hlen & Hidx & Hall & Hsel).
  destruct (plain_not_null _ Hsel (Hshow Hres)) as [n Hn].
  destruct (tidy_act props Next s Ht) as (s' & Hact & Ht').
  simpl in Hact. exists s'. split; [exact Hact|].
  assert (Hin : (currentQuestionIndex s < List.length (answers s))%nat) by lia.
  assert (Htake : take (S (currentQuestionIndex s))
                    (<[currentQuestionIndex s := Filled (Num n)]> (answers s))
                  = take (currentQuestionIndex s) (answers s) ++ [Filled (Num n)]).
  { rewrite (take_S_r _ _ (Filled (Num n)))
      by (apply list_lookup_insert_eq; exact Hin).
    rewrite take_insert_ge by lia. reflexivity. }
  assert (Hread : read (<[currentQuestionIndex s := Filled (Num n)]> (answers s))
                    (currentQuestionIndex s) = selectedAnswer s).
  { unfold read. rewrite list_lookup_insert_eq by exact Hin. symmetry. exact Hn. }
  destruct (handleNext_tidy props s n Ht Hn) as [[Hlt Heq] | [Hlast Heq]];
    rewrite Heq in Hact; injection Hact as <-; simpl.
  - split; [|split; [exact Hread | left; split; [lia | exact Hopen]]].
    split; [exact Ht'|]. simpl. split; [discriminate|].
    split; [|rewrite Hopen; discriminate].
    rewrite Nat.add_1_r, Htake. apply Forall_app. split; [exact Hbefore|].
    repeat constructor.
  - split; [|split; [exact Hread | right; split; [exact Hlast | reflexivity]]].
    assert (Hfull : Forall (fun slot => isAnswered slot = true)
                      (<[currentQuestionIndex s := Filled (Num n)]> (answers s))).
    { rewrite <- (take_ge (<[currentQuestionIndex s := Filled (Num n)]> (answers s))
                    (S (currentQuestionIndex s)))
        by (rewrite length_insert; lia).
      rewrite Htake. apply Forall_app. split; [exact Hbefore|]. repeat constructor. }
    split; [exact Ht'|]. simpl. split; [intros _; rewrite Hn; reflexivity|].
    split; [rewrite take_insert_ge by lia; exact Hbefore|].
    intros _. split; [exact Hfull|]. split; [reflexivity|].
    intros Hcb. eapply quizScore_snoc. simpl. rewrite Hcb. reflexivity.
Qed.

Lemma guided_act (props : Props) (a : Action) (s : State) :
  guided props s -> enabled props a s = true ->
  exists s', act props a s = Done s' /\ guided props s'.
Proof.
  intros Hg Hen.
  destruct (enabled_cases props a s Hen) as [[Hdone ->] | [Hopen Ha]].
  - eexists. split; [reflexivity|]. destruct Hg as (Ht & _).
    split; [apply tidy_restart, Ht|]. simpl.
    split; [discriminate|]. split; [constructor | discriminate].
  - destruct a as [z | | | |]; simpl.
    + eexists. split; [reflexivity|].
      destruct Hg as ((Hlen & Hidx & Hall & _) & _ & Hbefore & _).
      split; [repeat split; assumption|]. simpl.
      split; [rewrite Ha; discriminate|].
      split; [exact Hbefore | rewrite Hopen; discriminate].
    + destruct (guided_next props s Hg Hopen Ha) as (s' & Hact & Hg' & _).
      exists s'. split; assumption.
    + eexists. split; [reflexivity|]. destruct Hg as (Ht & Hshow & Hbefore & _).
      split; [apply tidy_previous, Ht|].
      unfold handlePrevious.
      destruct (0 <? currentQuestionIndex s)%nat; simpl.
      * split; [discriminate|]. split; [|rewrite Hopen; discriminate].
        replace (currentQuestionIndex s - 1)%nat
          with (Nat.min (currentQuestionIndex s - 1) (currentQuestionIndex s)) by lia.
        rewrite <- take_take. apply Forall_take. exact Hbefore.
      * split; [exact Hshow|]. split; [exact Hbefore | rewrite Hopen; discriminate].
    + eexists. split; [reflexivity|].
      destruct Hg as ((Hlen & Hidx & Hall & Hsel) & _ & Hbefore & _).
      destruct Ha as [_ Hnn].
      split; [repeat split; assumption|]. simpl.
      split; [intros _; exact Hnn|].
      split; [exact Hbefore | rewrite Hopen; discriminate].
    + contradiction.
Qed.

Lemma guided_run (props : Props) (acts : list Action) (s : State) :
  guided props s -> allowed props s acts = true ->
  exists s', run props s acts = Done s' /\ guided props s'.
Proof.
  revert s. induction acts as [|a acts IH]; intros s Hg Hal.
  - exists s. split; [reflexivity | exact Hg].
  - simpl in Hal. apply andb_true_iff in Hal as [Hen Hal].
    destruct (guided_act props a s Hg Hen) as (s1 & Hs1 & Hg1).
    simpl. rewrite Hs1 in Hal |- *. apply IH; assumption.
Qed.

Lemma allowed_run_guided (props : Props) (acts : list Action) :
  allowed props (initial props) acts = true ->
  exists s, run props (initial props) acts = Done s
            /\ (questions props <> [] -> guided props s).
Proof.
  intros Hal. destruct (questions props) as [|q qs] eqn:Hqs.
  - destruct acts as [|a acts].
    + exists (initial props). split; [reflexivity | contradiction].
    + simpl in Hal. unfold enabled in Hal. rewrite Hqs in Hal. discriminate.
  - assert (Hne : questions props <> []) by (rewrite Hqs; discriminate).
    destruct (guided_run props acts (initial props) (guided_initial props Hne) Hal)
      as (s & Hrun & Hg).
    exists s. split; [exact Hrun | intros _; exact Hg].
Qed.

(** X13. A quiz driven through its controls can only be completed with
    every question answered, and it is scored exactly: in any run from the
    initial state that uses only controls that are on the page and enabled,
    no call throws, and once the quiz is completed every slot of the
    answers array holds a number, the score is the number of questions
    whose answer equals their [correctAnswer], the score is at most the
    number of questions, and (when the parent passed [onComplete]) the
    score the home page keeps is that score out of the number of
    questions. *)
Theorem completed_quiz_is_scored (props : Props) (acts : list Action) :
  allowed props (initial props) acts = true ->
  exists s,
    run props (initial props) acts = Done s
    /\ (quizCompleted s = true ->
        Forall (fun slot => isAnswered slot = true) (answers s)
        /\ score s = List.length (correctOnes (questions props) (answers s))
        /\ (score s <= List.length (questions props))%nat
        /\ (onComplete props = true ->
            quizScore s = Some (score s, List.length (questions props)))).
Proof.
  intros Hal.
  destruct (allowed_run_guided props acts Hal) as (s & Hrun & Hg).
  exists s. split; [exact Hrun|]. intros Hdone.
  assert (Hne : questions props <> []).
  { intros Hqs. destruct acts as [|a acts].
    - simpl in Hrun. injection Hrun as <-. discriminate Hdone.
    - simpl in Hal. unfold enabled in Hal. rewrite Hqs in Hal. discriminate. }
  destruct (Hg Hne) as (_ & _ & _ & Hcompleted).
  destruct (Hcompleted Hdone) as (Hall & Hscore & Hcb).
  split; [exact Hall|]. split; [exact Hscore|]. split; [|exact Hcb].
  rewrite Hscore. apply correctOnes_bound.
Qed.

Lemma completed_quiz_is_scored_witness :
  exists s,
    run sampleQuiz (initial sampleQuiz)
      [AnswerSelect 1; SubmitAnswer; Next; AnswerSelect 0; SubmitAnswer; Next] = Done s
    /\ quizCompleted s = true
    /\ score s = 1%nat
    /\ quizScore s = Some (1%nat, 2%nat).
Proof.
  destruct (completed_quiz_is_scored sampleQuiz
              [AnswerSelect 1; SubmitAnswer; Next; AnswerSelect 0; SubmitAnswer; Next]
              eq_refl) as (s & Hrun & Hscored).
  exists s. split; [exact Hrun|].
  simpl in Hrun. injection Hrun as <-.
  split; [reflexivity|]. split; [reflexivity|].
  destruct (Hscored eq_refl) as (_ & _ & _ & Hcb). exact (Hcb eq_refl).
Defined.

(** X14. On a quiz driven through its controls the next button always
    does something: in a run from the initial state that uses only enabled
    controls, whenever the button is on the page an answer is selected, and
    [handleNext] stores that answer in the slot of the current question
    and then either moves to the following question or, on the last
    question, completes the quiz. *)
Theorem next_always_moves (props : Props) (acts : list Action) (s : State) :
  allowed props (initial props) acts = true ->
  run props (initial props) acts = Done s ->
  enabled props Next s = true ->
  exists s',
    handleNext props s = Done s'
    /\ isNull (selectedAnswer s) = false
    /\ read (answers s') (currentQuestionIndex s) = selectedAnswer s
    /\ ((currentQuestionIndex s' = S (currentQuestionIndex s)
         /\ quizCompleted s' = false)
        \/ (S (currentQuestionIndex s) = List.length (questions props)
            /\ quizCompleted s' = true)).
Proof.
  intros Hal Hrun Hen.
  destruct (allowed_run_guided props acts Hal) as (s0 & Hrun0 & Hg).
  rewrite Hrun in Hrun0. injection Hrun0 as <-.
  assert (Hne : questions props <> []).
  { intros Hqs. unfold enabled in Hen. rewrite Hqs in Hen. discriminate. }
  specialize (Hg Hne).
  destruct (enabled_cases props Next s Hen) as [[_ Hc] | [Hopen Hres]];
    [discriminate Hc|].
  destruct (guided_next props s Hg Hopen Hres) as (s' & Hact & _ & Hread & Hmove).
  exists s'. split; [exact Hact|]. split; [|split; assumption].
  destruct Hg as (_ & Hshow & _). apply Hshow, Hres.
Qed.

Lemma next_always_moves_witness :
  exists s',
    handleNext sampleQuiz
      (handleSubmitAnswer (handleAnswerSelect 2 (initial sampleQuiz))) = Done s'
    /\ currentQuestionIndex s' = 1%nat
    /\ read (answers s') 0 = Num 2.
Proof.
  destruct (next_always_moves sampleQuiz [AnswerSelect 2; SubmitAnswer]
              (handleSubmitAnswer (handleAnswerSelect 2 (initial sampleQuiz)))
              eq_refl eq_refl eq_refl) as (s' & Hact & _ & Hread & _).
  exists s'. split; [exact Hact|].
  simpl in Hact. injection Hact as <-. split; reflexivity.
Defined.

Lemma answered_before (l : list Slot) (n i : nat) :
  Forall (fun slot => isAnswered slot = true) (take n l) ->
  (i < n)%nat -> (n <= List.length l)%nat ->
  exists m, l !! i = Some (Filled (Num m)).
Proof.
  intros Hall Hi Hn.
  destruct (lookup_lt_is_Some_2 l i) as [slot Hslot]; [lia|].
  rewrite Forall_lookup in Hall.
  specialize (Hall i slot). rewrite lookup_take_lt in Hall by exact Hi.
  specialize (Hall Hslot).
  destruct slot as [|[| |m]]; try discriminate Hall.
  exists m. exact Hslot.
Qed.

Lemma back_and_forth_guided (props : Props) (s : State) :
  guided props s ->
  (isNull (selectedAnswer s) = false ->
   (S (currentQuestionIndex s) < List.length (questions props))%nat ->
   exists s1,
     handleNext props s = Done s1
     /\ currentQuestionIndex (handlePrevious s1) = currentQuestionIndex s
     /\ selectedAnswer (handlePrevious s1) = selectedAnswer s
     /\ answers (handlePrevious s1) = answers s1
     /\ read (answers s1) (currentQuestionIndex s) = selectedAnswer s)
  /\ ((0 < currentQuestionIndex s)%nat ->
      exists s2,
        handleNext props (handlePrevious s) = Done s2
        /\ currentQuestionIndex s2 = currentQuestionIndex s
        /\ answers s2 = answers s
        /\ selectedAnswer s2 = read (answers s) (currentQuestionIndex s)).
Proof.
  intros (Ht & _ & Hbefore & _). pose proof Ht as (Hlen & Hidx & Hall & Hsel).
  split.
  - intros Hnn Hnext. destruct (plain_not_null _ Hsel Hnn) as [n Hn].
    destruct (handleNext_tidy props s n Ht Hn) as [[_ Heq] | [Hlast _]]; [|lia].
    eexists. split; [exact Heq|].
    unfold handlePrevious. simpl.
    replace (0 <? currentQuestionIndex s + 1)%nat with true
      by (symmetry; apply Nat.ltb_lt; lia).
    simpl. replace (currentQuestionIndex s + 1 - 1)%nat
      with (currentQuestionIndex s) by lia.
    assert (Hread : read (<[currentQuestionIndex s := Filled (Num n)]> (answers s))
                      (currentQuestionIndex s) = selectedAnswer s).
    { unfold read. rewrite list_lookup_insert_eq by lia. symmetry. exact Hn. }
    repeat split; try reflexivity; exact Hread.
  - intros Hpos.
    destruct (answered_before (answers s) (currentQuestionIndex s)
                (currentQuestionIndex s - 1)) as [m Hm]; [exact Hbefore | lia | lia |].
    assert (Hprev : handlePrevious s
                    = {| currentQuestionIndex := currentQuestionIndex s - 1;
                         selectedAnswer := Num m;
                         answers := answers s;
                         showResult := false;
                         quizCompleted := quizCompleted s;
                         score := score s;
                         reported := reported s |}).
    { unfold handlePrevious.
      replace (0 <? currentQuestionIndex s)%nat with true
        by (symmetry; apply Nat.ltb_lt; exact Hpos).
      unfold read. rewrite Hm. reflexivity. }
    pose proof (tidy_previous props s Ht) as Ht1. rewrite Hprev in Ht1 |- *.
    destruct (handleNext_tidy props _ m Ht1 eq_refl) as [[_ Heq] | [Hlast _]];
      [|simpl in Hlast; lia].
    eexists. split; [exact Heq|]. simpl.
    replace (currentQuestionIndex s - 1 + 1)%nat with (currentQuestionIndex s) by lia.
    rewrite (list_insert_id _ _ _ Hm). repeat split; reflexivity.
Qed.

(** X15. Moving between questions keeps what was stored and nothing
    else. In every state reached from the initial state
    through enabled controls: (a) going to the next
    question and back shows the question again with the answer that was
    selected when leaving it; (b) going back and then forward again leaves
    the answers array as it was and shows the current question with the
    answer stored for it, so a selection that had not been stored with the
    next button is gone. *)
Theorem back_and_forth (props : Props) (acts : list Action) (s : State) :
  allowed props (initial props) acts = true ->
  run props (initial props) acts = Done s ->
  (isNull (selectedAnswer s) = false ->
   (S (currentQuestionIndex s) < List.length (questions props))%nat ->
   exists s1,
     handleNext props s = Done s1
     /\ currentQuestionIndex (handlePrevious s1) = currentQuestionIndex s
     /\ selectedAnswer (handlePrevious s1) = selectedAnswer s
     /\ answers (handlePrevious s1) = answers s1
     /\ read (answers s1) (currentQuestionIndex s) = selectedAnswer s)
  /\ ((0 < currentQuestionIndex s)%nat ->
      exists s2,
        handleNext props (handlePrevious s) = Done s2
        /\ currentQuestionIndex s2 = currentQuestionIndex s
        /\ answers s2 = answers s
        /\ selectedAnswer s2 = read (answers s) (currentQuestionIndex s)).
Proof.
  intros Hal Hrun.
  destruct (allowed_run_guided props acts Hal) as (s0 & Hrun0 & Hg).
  rewrite Hrun in Hrun0. injection Hrun0 as <-.
  assert (Hcases : questions props <> []
                   \/ (currentQuestionIndex s = 0%nat /\ questions props = [])).
  { destruct (questions props) as [|q qs] eqn:Hqs; [right | left; discriminate].
    split; [|reflexivity]. destruct acts as [|a acts].
    - simpl in Hrun. injection Hrun as <-. reflexivity.
    - simpl in Hal. unfold enabled in Hal. rewrite Hqs in Hal. discriminate. }
  destruct Hcases as [Hne | [Hzero Hnone]].
  - apply back_and_forth_guided, Hg, Hne.
  - rewrite Hzero, Hnone. simpl. split; intros; lia.
Qed.

Lemma back_and_forth_witness :
  exists s2,
    handleNext sampleQuiz
      (handlePrevious
         {| currentQuestionIndex := 1; selectedAnswer := Num 3;
            answers := [Filled (Num 0); Filled Null];
            showResult := false; quizCompleted := false; score := 0;
            reported := [] |}) = Done s2
    /\ currentQuestionIndex s2 = 1%nat
    /\ selectedAnswer s2 = Null.
Proof.
  destruct (proj2 (back_and_forth sampleQuiz
                     [AnswerSelect 0; SubmitAnswer; Next; AnswerSelect 3]
                     _ eq_refl eq_refl)) as (s2 & Hact & Hidx & _ & Hsel);
    [simpl; lia|].
  exists s2. split; [exact Hact|]. split; [exact Hidx | exact Hsel].
Defined.

End Quiz.
